(** * qtoolkit: the SLURM scheduler adapter ([qtoolkit/io/slurm.py]) and the
    data objects it produces ([qtoolkit/core/data_objects.py]).

    The Python code is embedded shallowly.  Text is [string]: a sequence of
    code points below 256, on which the character classes used by [str.strip],
    [str.split], [str.splitlines], [int] and the [re] module are the ones of
    CPython.  Integers are [Z].  A call that may raise returns a [result];
    dictionaries are [gmap]s, lists that the code mutates in place live in a
    heap of list objects. *)

From Stdlib Require Import ZArith String Ascii List Lia Bool.
From stdpp Require Import gmap strings list fin_maps.

Open Scope string_scope.
Open Scope Z_scope.

(** ** Exceptions and the error monad *)

(** Modelled from the spec: the exception classes [OutputParsingError] (the
    spec's ParsingError) and [CommandFailedError] of
    [qtoolkit/core/exceptions.py], which is not among the sources; they are
    two separate failure surfaces and not built-in exceptions, so that no
    [except] clause for a built-in exception catches them.  The other
    constructors are the built-in exceptions that the adapter can raise. *)
Inductive exn : Set :=
| OutputParsingError
| CommandFailedError
| ValueError
| KeyError
| IndexError
| TypeError
| AttributeError
| NotImplementedError
| RuntimeError.

Definition exn_eqb (a b : exn) : bool :=
  match a, b with
  | OutputParsingError, OutputParsingError
  | CommandFailedError, CommandFailedError
  | ValueError, ValueError
  | KeyError, KeyError
  | IndexError, IndexError
  | TypeError, TypeError
  | AttributeError, AttributeError
  | NotImplementedError, NotImplementedError
  | RuntimeError, RuntimeError => true
  | _, _ => false
  end.

Inductive result (A : Type) : Type :=
| Ok (a : A)
| Raise (e : exn).
Arguments Ok {A} a.
Arguments Raise {A} e.

Definition bind {A B} (m : result A) (k : A -> result B) : result B :=
  match m with
  | Ok a => k a
  | Raise e => Raise e
  end.

Notation "'do' x <- m ; k" := (bind m (fun x => k))
  (at level 10, x name, m at level 100, k at level 200).
Notation "'do' ' p <- m ; k" := (bind m (fun x => match x with p => k end))
  (at level 10, p pattern, m at level 100, k at level 200).

(** [try: x = m  except e: x = dflt] *)
Definition try_except {A} (m : result A) (e : exn) (dflt : A) : result A :=
  match m with
  | Ok a => Ok a
  | Raise e' => if exn_eqb e' e then Ok dflt else Raise e'
  end.

(** [try: m  except e: raise e'] *)
Definition try_reraise {A} (m : result A) (e e' : exn) : result A :=
  match m with
  | Ok a => Ok a
  | Raise e0 => if exn_eqb e0 e then Raise e' else Raise e0
  end.

(** The loop [for x in l: ys.append(f x)]: the first exception ends the loop
    and nothing of the list built so far is returned. *)
Fixpoint for_each {A B} (f : A -> result B) (l : list A) : result (list B) :=
  match l with
  | [] => Ok []
  | x :: l' => do y <- f x; do ys <- for_each f l'; Ok (y :: ys)
  end.

(** [d[k]] on a dictionary *)
Definition dict_get {K V} `{Countable K} (d : gmap K V) (k : K) : result V :=
  match d !! k with
  | Some v => Ok v
  | None => Raise KeyError
  end.

(** A dictionary display or comprehension: later entries replace earlier
    ones with the same key. *)
Definition dict_of {K V} `{Countable K} (l : list (K * V)) : gmap K V :=
  fold_left (fun d kv => <[kv.1 := kv.2]> d) l ∅.

(** [l[i]] for a non-negative index *)
Definition list_get {A} (l : list A) (i : nat) : result A :=
  match l !! i with
  | Some x => Ok x
  | None => Raise IndexError
  end.

(** ** Text primitives of Python *)

(** [str.isspace] on one code point (Py_UNICODE_ISSPACE below 256): tab to
    carriage return, the four separators 0x1c-0x1f, space, NEL and NBSP. *)
Definition is_space (c : ascii) : bool :=
  let n := N_of_ascii c in
  ((9 <=? n) && (n <=? 13) || (28 <=? n) && (n <=? 32) || (n =? 133) || (n =? 160))%N.

(** Decimal digits: below 256 the class is 0-9 for [int] and for [\d]. *)
Definition is_digit (c : ascii) : bool :=
  let n := N_of_ascii c in ((48 <=? n) && (n <=? 57))%N.

Definition digit_val (c : ascii) : Z := Z.of_N (N_of_ascii c) - 48.

(** Line boundaries of [str.splitlines] below 256. *)
Definition is_linebreak (c : ascii) : bool :=
  let n := N_of_ascii c in
  ((10 <=? n) && (n <=? 13) || (28 <=? n) && (n <=? 30) || (n =? 133))%N.

Fixpoint lstrip (s : string) : string :=
  match s with
  | String c s' => if is_space c then lstrip s' else s
  | EmptyString => EmptyString
  end.

Fixpoint rstrip (s : string) : string :=
  match s with
  | EmptyString => EmptyString
  | String c s' =>
      match rstrip s' with
      | EmptyString => if is_space c then EmptyString else String c EmptyString
      | r => String c r
      end
  end.

(** [s.strip()] *)
Definition strip (s : string) : string := rstrip (lstrip s).

(** [s.startswith(p)], returning what follows [p] *)
Fixpoint prefix_rest (p s : string) : option string :=
  match p, s with
  | EmptyString, _ => Some s
  | String a p', String b s' => if Ascii.eqb a b then prefix_rest p' s' else None
  | String _ _, EmptyString => None
  end.

(** [sub in s] *)
Fixpoint contains (sub s : string) : bool :=
  match prefix_rest sub s with
  | Some _ => true
  | None =>
      match s with
      | String _ s' => contains sub s'
      | EmptyString => false
      end
  end.

(** [s.split(sep, maxsplit)] for a non-empty [sep]: occurrences are taken
    left to right without overlap; [limit] counts the splits still allowed
    and [skip] the characters of the current occurrence still to pass. *)
Fixpoint split_go (sep : string) (limit skip : nat) (s : string) : list string :=
  match s with
  | EmptyString => [EmptyString]
  | String c s' =>
      match skip with
      | S k => split_go sep limit k s'
      | O =>
          match limit, prefix_rest sep s with
          | S l, Some _ => EmptyString :: split_go sep l (String.length sep - 1) s'
          | _, _ =>
              match split_go sep limit 0 s' with
              | tok :: rest => String c tok :: rest
              | [] => [String c EmptyString]
              end
          end
      end
  end.

(** [s.split(sep)] with a literal, non-empty separator *)
Definition split_on (sep s : string) : list string :=
  split_go sep (S (String.length s)) 0 s.

(** [s.split(sep, maxsplit=n)] with a literal, non-empty separator *)
Definition split_on_max (sep : string) (n : nat) (s : string) : list string :=
  split_go sep n 0 s.

(** [s.split(sep)] where [sep] is a run-time value: the empty separator is
    refused. *)
Definition py_split (sep s : string) : result (list string) :=
  if String.eqb sep "" then Raise ValueError else Ok (split_on sep s).

(** [s.split()]: runs of whitespace separate the words. *)
Fixpoint split_ws_go (s : string) : string * list string :=
  match s with
  | EmptyString => (EmptyString, [])
  | String c s' =>
      let '(tok, rest) := split_ws_go s' in
      if is_space c
      then (EmptyString, if String.eqb tok "" then rest else tok :: rest)
      else (String c tok, rest)
  end.

Definition split_ws (s : string) : list string :=
  let '(tok, rest) := split_ws_go s in
  if String.eqb tok "" then rest else tok :: rest.

(** [s.splitlines()]: a carriage return followed by a line feed is one
    boundary, and no empty last line is produced. *)
Fixpoint splitlines_go (after_cr : bool) (s : string) : list string :=
  match s with
  | EmptyString => []
  | String c s' =>
      if after_cr && Ascii.eqb c "010" then splitlines_go false s'
      else if is_linebreak c then EmptyString :: splitlines_go (Ascii.eqb c "013") s'
      else
        match splitlines_go false s' with
        | [] => [String c EmptyString]
        | l :: ls => String c l :: ls
        end
  end.

Definition splitlines (s : string) : list string := splitlines_go false s.

(** [sep.join(l)] *)
Fixpoint join (sep : string) (l : list string) : string :=
  match l with
  | [] => EmptyString
  | [x] => x
  | x :: l' => x +:+ sep +:+ join sep l'
  end.

(** [s[-1]] *)
Fixpoint str_last (s : string) : result string :=
  match s with
  | EmptyString => Raise IndexError
  | String c EmptyString => Ok (String c EmptyString)
  | String _ s' => str_last s'
  end.

(** [s[:-1]] *)
Fixpoint str_init (s : string) : string :=
  match s with
  | EmptyString => EmptyString
  | String _ EmptyString => EmptyString
  | String c s' => String c (str_init s')
  end.

(** The digits of an [int] literal in base ten: underscores are allowed
    between two digits only. *)
Fixpoint digits_go (acc : Z) (after_digit : bool) (s : string) : option Z :=
  match s with
  | EmptyString => if after_digit then Some acc else None
  | String c s' =>
      if is_digit c then digits_go (10 * acc + digit_val c) true s'
      else if Ascii.eqb c "_" && after_digit then digits_go acc false s'
      else None
  end.

(** [int(s)]: surrounding whitespace is dropped, one sign is allowed.  (The
    interpreter's configurable limit on the number of digits is not part
    of the model.) *)
Definition py_int (s : string) : result Z :=
  let digits r := match digits_go 0 false r with
                  | Some v => Ok v
                  | None => Raise ValueError
                  end in
  match strip s with
  | String c r =>
      if Ascii.eqb c "+" then digits r
      else if Ascii.eqb c "-" then do v <- digits r; Ok (- v)
      else digits (String c r)
  | EmptyString => Raise ValueError
  end.

(** ** Data objects ([qtoolkit/core/data_objects.py]) *)

(** A value of a dataclass field that is not always text *)
Inductive value : Set :=
| VInt (n : Z)
| VStr (s : string).

(** Modelled from the spec: the base class [QBase] of
    [qtoolkit/core/base.py], which is not among the sources, is a generic
    base without behaviour of its own for construction or attribute access.
    The [__init__] that [@dataclass] generates then accepts the declared
    fields as keywords and nothing else. *)
Definition dataclass_init {A} (fields kwargs : list string) (obj : A) : result A :=
  if forallb (fun k => existsb (String.eqb k) fields) kwargs
  then Ok obj else Raise TypeError.

(** Modelled from the spec: the base class [QEnum] of
    [qtoolkit/core/base.py], which is not among the sources, is a generic
    enumeration base; [E(v)] is the member of [E] whose value is [v], and a
    ValueError when there is none. *)
Definition enum_call {A} (members : list A) (val : A -> string) (v : string) : result A :=
  match find (fun m => String.eqb (val m) v) members with
  | Some m => Ok m
  | None => Raise ValueError
  end.

Module SubmissionStatus.
Inductive t : Set := SUCCESSFUL | FAILED | JOB_ID_UNKNOWN.
Definition val (s : t) : string :=
  match s with
  | SUCCESSFUL => "SUCCESSFUL"
  | FAILED => "FAILED"
  | JOB_ID_UNKNOWN => "JOB_ID_UNKNOWN"
  end.
Definition members : list t := [SUCCESSFUL; FAILED; JOB_ID_UNKNOWN].
Definition call : string -> result t := enum_call members val.
End SubmissionStatus.

Module SubmissionResult.
Record t : Type := mk {
  job_id : option string;
  step_id : option Z;
  exit_code : option Z;
  stdout : option string;
  stderr : option string;
  status : option SubmissionStatus.t }.
Definition fields : list string :=
  ["job_id"; "step_id"; "exit_code"; "stdout"; "stderr"; "status"].
End SubmissionResult.

Module QState.
Inductive t : Set :=
| UNDETERMINED | QUEUED | QUEUED_HELD | RUNNING | SUSPENDED
| REQUEUED | REQUEUED_HELD | DONE | FAILED.
End QState.

(** [QResources]: every field is optional; three of them have a default
    that is not [None]. *)
Module QResources.
Record t : Type := mk {
  queue_name : option string;
  job_name : option string;
  memory_per_thread : option Z;
  nodes : option Z;
  processes : option Z;
  processes_per_node : option Z;
  threads_per_process : option Z;
  time_limit : option Z;
  account : option string;
  qos : option string;
  priority : option value;
  output_filepath : option string;
  error_filepath : option string }.

(** [QResources()] *)
Definition default : t :=
  mk None None (Some 1024) (Some 1) (Some 1) None None None None None None None None.

(** [getattr(resources, name)]: the instance has the declared fields and no
    other attribute. *)
Definition getattr (r : t) (name : string) : result (option value) :=
  let str := option_map VStr in
  let int := option_map VInt in
  if String.eqb name "queue_name" then Ok (str (queue_name r))
  else if String.eqb name "job_name" then Ok (str (job_name r))
  else if String.eqb name "memory_per_thread" then Ok (int (memory_per_thread r))
  else if String.eqb name "nodes" then Ok (int (nodes r))
  else if String.eqb name "processes" then Ok (int (processes r))
  else if String.eqb name "processes_per_node" then Ok (int (processes_per_node r))
  else if String.eqb name "threads_per_process" then Ok (int (threads_per_process r))
  else if String.eqb name "time_limit" then Ok (int (time_limit r))
  else if String.eqb name "account" then Ok (str (account r))
  else if String.eqb name "qos" then Ok (str (qos r))
  else if String.eqb name "priority" then Ok (priority r)
  else if String.eqb name "output_filepath" then Ok (str (output_filepath r))
  else if String.eqb name "error_filepath" then Ok (str (error_filepath r))
  else Raise AttributeError.
End QResources.

(** [QJobInfo]: the declared fields, and [attrs] for the attributes that
    are set on an instance without being declared. *)
Module QJobInfo.
Record t : Type := mk {
  memory : option Z;
  memory_per_cpu : option Z;
  nodes : option Z;
  cpus : option Z;
  threads_per_process : option Z;
  time_limit : option Z;
  attrs : gmap string string }.
Definition fields : list string :=
  ["memory"; "memory_per_cpu"; "nodes"; "cpus"; "threads_per_process"; "time_limit"].
(** [QJobInfo()] *)
Definition default : t := mk None None None None None None ∅.
End QJobInfo.

(** ** The raw states of SLURM *)

(** [SlurmState(QSubState)]: each member has two values, the name that
    [scontrol] prints and the code that [squeue] prints; [QSubState.__new__]
    registers both in the table that [SlurmState(v)] looks up. *)
Module SlurmState.
Inductive t : Set :=
| CANCELLED | COMPLETING | COMPLETED | CONFIGURING | DEADLINE | FAILED
| NODE_FAIL | OUT_OF_MEMORY | PENDING | RUNNING | SUSPENDED | TIMEOUT.

Definition all_values (s : t) : string * string :=
  match s with
  | CANCELLED => ("CANCELLED", "CA")
  | COMPLETING => ("COMPLETING", "CG")
  | COMPLETED => ("COMPLETED", "CD")
  | CONFIGURING => ("CONFIGURING", "CF")
  | DEADLINE => ("DEADLINE", "DL")
  | FAILED => ("FAILED", "F")
  | NODE_FAIL => ("NODE_FAIL", "NF")
  | OUT_OF_MEMORY => ("OUT_OF_MEMORY", "OOM")
  | PENDING => ("PENDING", "PD")
  | RUNNING => ("RUNNING", "R")
  | SUSPENDED => ("SUSPENDED", "S")
  | TIMEOUT => ("TIMEOUT", "TO")
  end.

Definition members : list t :=
  [CANCELLED; COMPLETING; COMPLETED; CONFIGURING; DEADLINE; FAILED;
   NODE_FAIL; OUT_OF_MEMORY; PENDING; RUNNING; SUSPENDED; TIMEOUT].

(** [_value2member_map_]: for each member in turn, [__new__] enters the
    other value, then the enumeration enters the first one. *)
Definition value2member_map : gmap string t :=
  dict_of (flat_map (fun m => [((all_values m).2, m); ((all_values m).1, m)]) members).

(** [SlurmState(v)] *)
Definition call (v : string) : result t :=
  match value2member_map !! v with
  | Some m => Ok m
  | None => Raise ValueError
  end.

Definition eqb (a b : t) : bool :=
  String.eqb (all_values a).1 (all_values b).1.
End SlurmState.

Module QJob.
Record t : Type := mk {
  name : option string;
  job_id : option string;
  exit_status : option Z;
  state : option QState.t;
  sub_state : option SlurmState.t;
  info : option QJobInfo.t;
  account : option string;
  runtime : option Z;
  queue_name : option string;
  attrs : gmap string string }.
Definition fields : list string :=
  ["name"; "job_id"; "exit_status"; "state"; "sub_state"; "info"; "account";
   "runtime"; "queue_name"].
(** [QJob()] *)
Definition default : t := mk None None None None None None None None None ∅.
End QJob.

(** ** The fragment of the [re] module that the adapter uses *)

(** Patterns.  Repetition is only ever applied to a single character class,
    and a group without a name only brackets its content. *)
Inductive regex : Type :=
| Cls (p : ascii -> bool)
| Lit (s : string)
| Cat (r1 r2 : regex)
| Alt (r1 r2 : regex)
| Opt (r : regex)
| Star (p : ascii -> bool)
| Plus (p : ascii -> bool)
| Group (name : string) (r : regex).

(** [.] without DOTALL, [\s] and [\d] on text, and a two-letter set *)
Definition re_dot (c : ascii) : bool := negb (Ascii.eqb c "010").
Definition re_s : ascii -> bool := is_space.
Definition re_d : ascii -> bool := is_digit.
Definition re_set2 (a b : ascii) (c : ascii) : bool := Ascii.eqb c a || Ascii.eqb c b.

(** The text between the start of [s] and its suffix [s'] *)
Definition consumed (s s' : string) : string :=
  substring 0 (String.length s - String.length s') s.

(** Where a greedy [p*] can stop, the longest run first *)
Fixpoint star_ends (p : ascii -> bool) (s : string) : list string :=
  match s with
  | String c s' => if p c then (star_ends p s' ++ [s])%list else [s]
  | EmptyString => [s]
  end.

(** All the ways in which [r] matches at the start of [s], in the order in
    which the backtracking matcher tries them: each gives the rest of the
    text and the named groups.  The matcher returns the first. *)
Fixpoint ends (r : regex) (s : string) (groups : gmap string string)
  : list (string * gmap string string) :=
  match r with
  | Cls p =>
      match s with
      | String c s' => if p c then [(s', groups)] else []
      | EmptyString => []
      end
  | Lit l =>
      match prefix_rest l s with
      | Some s' => [(s', groups)]
      | None => []
      end
  | Cat r1 r2 => flat_map (fun e => ends r2 e.1 e.2) (ends r1 s groups)
  | Alt r1 r2 => (ends r1 s groups ++ ends r2 s groups)%list
  | Opt r1 => (ends r1 s groups ++ [(s, groups)])%list
  | Star p => map (fun s' => (s', groups)) (star_ends p s)
  | Plus p =>
      match s with
      | String c s' => if p c then map (fun s' => (s', groups)) (star_ends p s') else []
      | EmptyString => []
      end
  | Group name r1 =>
      map (fun e => (e.1, <[name := consumed s e.1]> e.2)) (ends r1 s groups)
  end.

(** [pattern.match(s)]: the groups of the first match at the start of [s],
    or [None] *)
Definition re_match (r : regex) (s : string) : option (gmap string string) :=
  match ends r s ∅ with
  | e :: _ => Some e.2
  | [] => None
  end.

(** The texts that a pattern denotes *)
Inductive in_lang : regex -> string -> Prop :=
| in_Cls p c : p c = true -> in_lang (Cls p) (String c "")
| in_Lit l : in_lang (Lit l) l
| in_Cat r1 r2 s1 s2 : in_lang r1 s1 -> in_lang r2 s2 -> in_lang (Cat r1 r2) (s1 +:+ s2)
| in_Alt_l r1 r2 s : in_lang r1 s -> in_lang (Alt r1 r2) s
| in_Alt_r r1 r2 s : in_lang r2 s -> in_lang (Alt r1 r2) s
| in_Opt_some r s : in_lang r s -> in_lang (Opt r) s
| in_Opt_none r : in_lang (Opt r) ""
| in_Star_nil p : in_lang (Star p) ""
| in_Star_cons p c s : p c = true -> in_lang (Star p) s -> in_lang (Star p) (String c s)
| in_Plus p c s : p c = true -> in_lang (Star p) s -> in_lang (Plus p) (String c s)
| in_Group name r s : in_lang r s -> in_lang (Group name r) s.

(** [s] starts with a text of the pattern *)
Definition matches_at_start (r : regex) (s : string) : Prop :=
  exists s1 s2, s = s1 +:+ s2 /\ in_lang r s1.

(** ** The adapter *)

(** An instance of [SlurmIO]: the two attributes that the methods read from
    [self]; [None] is an attribute that was never set. *)
Module SlurmIO.
Record t : Type := mk {
  get_job_executable : option string;
  split_separator : option string }.

(** [self.name] *)
Definition getattr (a : option string) : result string :=
  match a with
  | Some v => Ok v
  | None => Raise AttributeError
  end.

(** A new instance, before any initialiser has run *)
Definition blank : t := mk None None.

(** The method that the class body defines under the name [__int__]; the
    two parameters default to ["scontrol"] and ["<><>"]. *)
Definition __int__ (self : t) (get_job_executable split_separator : option string) : t :=
  mk (Some (default "scontrol" get_job_executable))
     (Some (default "<><>" split_separator)).

(** The initialisers in the class body, by name: the body binds
    [__int__] and no [__init__]. *)
Definition initialisers : list (string * (t -> option string -> option string -> t)) :=
  [("__int__", __int__)].

Definition lookup_method {M} (name : string) (ns : list (string * M)) : option M :=
  option_map snd (find (fun e => String.eqb e.1 name) ns).

(** [SlurmIO(a, b)]: the instance is created and then [__init__] is called
    with the arguments, the one of the class if it has one and the inherited
    one otherwise.  [BaseSchedulerIO] is not part of the sources, so its
    initialiser is a parameter. *)
Definition new (base_init : t -> list string -> result t) (args : list string) : result t :=
  match lookup_method "__init__" initialisers with
  | Some init =>
      match args with
      | [] => Ok (init blank None None)
      | [a] => Ok (init blank (Some a) None)
      | [a; b] => Ok (init blank (Some a) (Some b))
      | _ => Raise TypeError
      end
  | None => base_init blank args
  end.

(** [object.__init__]: what a base class without an initialiser of its own
    provides; it takes no argument and sets nothing. *)
Definition object_init (self : t) (args : list string) : result t :=
  match args with
  | [] => Ok self
  | _ => Raise TypeError
  end.
End SlurmIO.

(** Truth value of an optional text and of a list *)
Definition truthy (o : option string) : bool :=
  match o with
  | Some s => negb (String.eqb s "")
  | None => false
  end.

(** [_STATUS_MAPPING] *)
Definition _STATUS_MAPPING : list (SlurmState.t * QState.t) :=
  [ (SlurmState.CANCELLED, QState.SUSPENDED);
    (SlurmState.COMPLETING, QState.RUNNING);
    (SlurmState.COMPLETED, QState.DONE);
    (SlurmState.CONFIGURING, QState.QUEUED);
    (SlurmState.DEADLINE, QState.FAILED);
    (SlurmState.FAILED, QState.FAILED);
    (SlurmState.NODE_FAIL, QState.FAILED);
    (SlurmState.OUT_OF_MEMORY, QState.FAILED);
    (SlurmState.PENDING, QState.QUEUED);
    (SlurmState.RUNNING, QState.RUNNING);
    (SlurmState.SUSPENDED, QState.SUSPENDED);
    (SlurmState.TIMEOUT, QState.FAILED) ].

(** [_STATUS_MAPPING[s]] *)
Definition status_mapping_get (s : SlurmState.t) : result QState.t :=
  match find (fun e => SlurmState.eqb e.1 s) _STATUS_MAPPING with
  | Some e => Ok e.2
  | None => Raise KeyError
  end.

(** The pattern compiled in [parse_submit_output]: an optional prefix (any
    characters but a line feed, greedily, then a colon and any blanks), one
    of the two phrases with either case of its first letter, at least one
    blank ([submitted_prefix]), and the group [jobid] of at least one digit. *)
Definition submitted_prefix : regex :=
  Cat (Opt (Cat (Star re_dot) (Cat (Lit ":") (Star re_s))))
 (Cat (Alt (Cat (Cls (re_set2 "G" "g")) (Lit "ranted job allocation"))
           (Cat (Cls (re_set2 "S" "s")) (Lit "ubmitted batch job")))
      (Plus re_s)).

Definition _SLURM_SUBMITTED_REGEXP : regex :=
  Cat submitted_prefix (Group "jobid" (Plus re_d)).

(** [parse_submit_output], on text: when the captured output is [bytes] the
    method first decodes it, and goes on as here. *)
Definition parse_submit_output (self : SlurmIO.t) (exit_code : Z) (stdout stderr : string)
  : result SubmissionResult.t :=
  if negb (exit_code =? 0) then
    do status <- SubmissionStatus.call "FAILED";
    dataclass_init SubmissionResult.fields ["exit_code"; "stdout"; "stderr"; "status"]
      (SubmissionResult.mk None None (Some exit_code) (Some stdout) (Some stderr)
         (Some status))
  else
    let match_ := re_match _SLURM_SUBMITTED_REGEXP (strip stdout) in
    let job_id := match match_ with
                  | Some groups => groups !! "jobid"
                  | None => None
                  end in
    do status <- (if truthy job_id
                  then SubmissionStatus.call "SUCCESSFUL"
                  else SubmissionStatus.call "JOB_ID_UNKNOWN");
    dataclass_init SubmissionResult.fields
      ["job_id"; "exit_code"; "stdout"; "stderr"; "status"]
      (SubmissionResult.mk job_id None (Some exit_code) (Some stdout) (Some stderr)
         (Some status)).

(** [squeue_fields] *)
Definition squeue_fields : list (string * string) :=
  [ ("%i", "job_id"); ("%t", "state_raw"); ("%r", "annotation"); ("%j", "job_name");
    ("%u", "username"); ("%P", "partition"); ("%l", "time_limit");
    ("%D", "number_nodes"); ("%C", "number_cpus"); ("%M", "time_used");
    ("%m", "min_memory") ].

(** [_get_job_cmd] *)
Definition _get_job_cmd (self : SlurmIO.t) (job_id : string) : result string :=
  do exe <- SlurmIO.getattr (SlurmIO.get_job_executable self);
  if String.eqb exe "scontrol"
  then Ok ("SLURM_TIME_FORMAT='standard' scontrol show job -o " +:+ job_id)
  else if String.eqb exe "sacct" then Raise NotImplementedError
  else Raise RuntimeError.

(** [_convert_time_str] *)
Definition _convert_time_str (time_str : string) : result (option Z) :=
  if String.eqb time_str "" then Ok None
  else if existsb (String.eqb time_str) ["UNLIMITED"; "NOT_SET"] then Ok None
  else
    let time_split := split_on ":" time_str in
    do '(days, hours, minutes, seconds) <-
      try_reraise
        (do first <- list_get time_split 0;
         do '(days, time_split) <-
           (if contains "-" first then
              let split_day := split_on "-" first in
              do day <- list_get split_day 0;
              do days <- py_int day;
              do day' <- list_get split_day 0;
              Ok (days, day' :: tail time_split)
            else Ok (0, time_split));
         match time_split with
         | [h; m; s] =>
             do hours <- py_int h;
             do minutes <- py_int m;
             do seconds <- py_int s;
             Ok (days, hours, minutes, seconds)
         | [m; s] =>
             do minutes <- py_int m;
             do seconds <- py_int s;
             Ok (days, 0, minutes, seconds)
         | [m] =>
             do minutes <- py_int m;
             Ok (days, 0, minutes, 0)
         | _ => Raise OutputParsingError
         end)
        ValueError OutputParsingError;
    Ok (Some (days * 86400 + hours * 3600 + minutes * 60 + seconds)).

(** The table [power_labels] of [_convert_memory_str] *)
Definition power_labels : gmap string Z :=
  dict_of [("K", 0); ("M", 1); ("G", 2); ("T", 3)].

(** [_convert_memory_str] *)
Definition _convert_memory_str (memory : string) : result Z :=
  do '(units, memory) <-
    (if forallb (fun u => contains u memory) ["K"; "M"; "G"; "T"]
     then Ok ("M", memory)
     else do units <- str_last memory; Ok (units, str_init memory));
  do v <- try_reraise (py_int memory) ValueError OutputParsingError;
  do p <- dict_get power_labels units;
  Ok (v * 1024 ^ p).

(** [_parse_scontrol_cmd_output]: a dictionary comprehension over the words
    of the output, each cut at its first [=]. *)
Definition _parse_scontrol_cmd_output (stdout : string) : result (gmap string string) :=
  do items <- for_each
      (fun data =>
         do k <- list_get (split_on_max "=" 1 data) 0;
         do v <- list_get (split_on_max "=" 1 data) 1;
         Ok (k, v))
      (split_ws stdout);
  Ok (dict_of items).

(** [parse_job_output], on text *)
Definition parse_job_output (self : SlurmIO.t) (exit_code : Z) (stdout stderr : string)
  : result QJob.t :=
  if negb (exit_code =? 0) then
    do _ <- SlurmIO.getattr (SlurmIO.get_job_executable self);
    Raise CommandFailedError
  else
    do exe <- SlurmIO.getattr (SlurmIO.get_job_executable self);
    do parsed_output <-
      (if String.eqb exe "scontrol" then _parse_scontrol_cmd_output stdout
       else if String.eqb exe "sacct" then Raise NotImplementedError
       else Raise RuntimeError);
    do state_raw <- dict_get parsed_output "JobState";
    do slurm_state <- SlurmState.call state_raw;
    do job_state <- status_mapping_get slurm_state;
    do memory_per_cpu <-
      try_except (do m <- dict_get parsed_output "MinMemoryCPU";
                  do v <- _convert_memory_str m; Ok (Some v))
                 OutputParsingError None;
    do nodes <-
      try_except (do n <- dict_get parsed_output "NumNodes";
                  do v <- py_int n; Ok (Some v))
                 ValueError None;
    do cpus <-
      try_except (do n <- dict_get parsed_output "NumCPUs";
                  do v <- py_int n; Ok (Some v))
                 ValueError None;
    do cpus_task <-
      try_except (do n <- dict_get parsed_output "CPUs/Task";
                  do v <- py_int n; Ok (Some v))
                 ValueError None;
    do priority <-
      try_except (do n <- dict_get parsed_output "Priority";
                  do v <- py_int n; Ok (Some v))
                 ValueError None;
    do time_limit <-
      try_except (do t <- dict_get parsed_output "TimeLimit"; _convert_time_str t)
                 OutputParsingError None;
    do qos <- dict_get parsed_output "QOS";
    do info <-
      dataclass_init QJobInfo.fields
        ["memory"; "nodes"; "cpus"; "threads_per_process"; "time_limit"; "priority"; "qos"]
        (QJobInfo.mk memory_per_cpu None nodes cpus cpus_task time_limit ∅);
    do name <- dict_get parsed_output "JobName";
    do job_id <- dict_get parsed_output "JobId";
    do account <- dict_get parsed_output "UserId";
    do queue_name <- dict_get parsed_output "Partition";
    dataclass_init QJob.fields
      ["name"; "job_id"; "state"; "sub_state"; "info"; "account"; "queue_name"]
      (QJob.mk (Some name) (Some job_id) None (Some job_state) (Some slurm_state)
         (Some info) (Some account) None (Some queue_name) ∅).

(** The list objects that callers share with the adapter, by reference *)
Abbreviation heap := (gmap nat (list string)).

(** [_get_jobs_list_cmd]: [job_ids] is [None] or a reference to a list
    object of the heap; the method returns the heap as it leaves it. *)
Definition _get_jobs_list_cmd (self : SlurmIO.t) (h : heap)
    (job_ids : option nat) (user : option string) : heap * result string :=
  let ids_of (h : heap) := match job_ids with
                           | Some l => default [] (h !! l)
                           | None => []
                           end in
  let nonempty (l : list string) := match l with [] => false | _ => true end in
  if truthy user && nonempty (ids_of h) then (h, Raise ValueError)
  else
    match SlurmIO.getattr (SlurmIO.split_separator self) with
    | Raise e => (h, Raise e)
    | Ok sep =>
        let fields := join (sep +:+ " ") (map fst squeue_fields) in
        let command := ["SLURM_TIME_FORMAT='standard'"; "squeue"; "--noheader";
                        "-o '" +:+ fields +:+ "'"] in
        let command := if truthy user
                       then (command ++ ["-u " +:+ default "" user])%list
                       else command in
        match job_ids with
        | Some l =>
            if nonempty (ids_of h) then
              let h' := if (length (ids_of h) =? 1)%nat
                        then <[l := (ids_of h ++ firstn 1 (ids_of h))%list]> h
                        else h in
              (h', Ok (join " " (command ++ ["--jobs=" +:+ join "," (ids_of h')])%list))
            else (h, Ok (join " " command))
        | None => (h, Ok (join " " command))
        end
    end.

(** The rows of [parse_jobs_list_output]: the lines that contain the
    separator, each split at it. *)
Definition jobdata_raw (self : SlurmIO.t) (stdout : string) : result (list (list string)) :=
  do rows <- for_each
      (fun chunk =>
         do sep <- SlurmIO.getattr (SlurmIO.split_separator self);
         if contains sep chunk
         then do sep' <- SlurmIO.getattr (SlurmIO.split_separator self);
              do data <- py_split sep' chunk;
              Ok (Some data)
         else Ok None)
      (splitlines stdout);
  Ok (omap id rows).

(** The body of the loop of [parse_jobs_list_output] for one row *)
Definition jobs_list_entry (data : list string) : result QJob.t :=
  let num_fields := length squeue_fields in
  if negb (length data =? num_fields)%nat then Raise OutputParsingError
  else
    let thisjob_dict : gmap string string :=
      dict_of (map (fun kv => ((kv.1).2, strip kv.2)) (zip squeue_fields data)) in
    let qjob := QJob.default in
    do job_id <- dict_get thisjob_dict "job_id";
    do job_state_string <- dict_get thisjob_dict "state_raw";
    do slurm_job_state <-
      try_reraise (SlurmState.call job_state_string) ValueError OutputParsingError;
    do state <- status_mapping_get slurm_job_state;
    do username <- dict_get thisjob_dict "username";
    let info := QJobInfo.default in
    do nodes <-
      try_except (do n <- dict_get thisjob_dict "number_nodes";
                  do v <- py_int n; Ok (Some v))
                 ValueError None;
    do cpus <-
      try_except (do n <- dict_get thisjob_dict "number_cpus";
                  do v <- py_int n; Ok (Some v))
                 ValueError None;
    do memory_per_cpu <-
      try_except (do m <- dict_get thisjob_dict "min_memory";
                  do v <- _convert_memory_str m; Ok (Some v))
                 OutputParsingError None;
    do partition <- dict_get thisjob_dict "partition";
    do time_limit <- (do t <- dict_get thisjob_dict "time_limit"; _convert_time_str t);
    do runtime <-
      try_except (do t <- dict_get thisjob_dict "time_used"; _convert_time_str t)
                 OutputParsingError None;
    do name <- dict_get thisjob_dict "job_name";
    Ok (QJob.mk (Some name) (Some job_id) (QJob.exit_status qjob) (Some state)
          (Some slurm_job_state)
          (Some (QJobInfo.mk (QJobInfo.memory info) memory_per_cpu nodes cpus
                   (QJobInfo.threads_per_process info) time_limit
                   (<["partition" := partition]> (QJobInfo.attrs info))))
          (QJob.account qjob) runtime (QJob.queue_name qjob)
          (<["username" := username]> (QJob.attrs qjob))).

(** [parse_jobs_list_output] *)
Definition parse_jobs_list_output (self : SlurmIO.t) (exit_code : Z) (stdout stderr : string)
  : result (list QJob.t) :=
  if negb (exit_code =? 0) then
    do _ <- SlurmIO.getattr (SlurmIO.get_job_executable self);
    Raise CommandFailedError
  else
    do rows <- jobdata_raw self stdout;
    for_each jobs_list_entry rows.

(** [_qresources_mapping], in the order of the dictionary display *)
Definition _qresources_mapping : list (string * string) :=
  [ ("queue_name", "partition");
    ("memory_per_thread", "mem-per-cpu");
    ("nodes", "nodes");
    ("processes", "ntasks");
    ("processes_per_node", "ntasks-per-node");
    ("threads_per_process", "cpus-per-task");
    ("time_limit", "time");
    ("hold", "hold");
    ("account", "account");
    ("qos", "qos");
    ("priority", "priority") ].

(** The loop of [_convert_qresources] over the items of a mapping *)
Fixpoint convert_items (resources : QResources.t) (items : list (string * string))
    (header_dict : gmap string value) : result (gmap string value) :=
  match items with
  | [] => Ok header_dict
  | (qr_field, slurm_field) :: items' =>
      do val <- QResources.getattr resources qr_field;
      convert_items resources items'
        (match val with
         | Some v => <[slurm_field := v]> header_dict
         | None => header_dict
         end)
  end.

(** [_convert_qresources] *)
Definition _convert_qresources (resources : QResources.t) : result (gmap string value) :=
  convert_items resources _qresources_mapping ∅.

(** Every character of [s] is in the class [p] *)
Fixpoint str_forall (p : ascii -> bool) (s : string) : bool :=
  match s with
  | EmptyString => true
  | String c s' => p c && str_forall p s'
  end.

(** [s] begins with a character of the class [p] *)
Definition starts_in (p : ascii -> bool) (s : string) : bool :=
  match s with
  | EmptyString => false
  | String c _ => p c
  end.

(** The characters that an [int] literal can hold: blanks, signs, digits
    and underscores *)
Definition int_char (c : ascii) : bool :=
  is_space c || is_digit c || Ascii.eqb c "+" || Ascii.eqb c "-" || Ascii.eqb c "_".

(** The value that a guarded conversion leaves in its field: absent when
    the conversion raised *)
Definition absent_on_error {A} (r : result A) : option A :=
  match r with
  | Ok a => Some a
  | Raise _ => None
  end.

(** ** Sample inputs *)

(** An adapter whose two attributes have the values that [__int__] gives
    by default *)
Definition sample_adapter : SlurmIO.t := SlurmIO.mk (Some "scontrol") (Some "<><>").

(** A line of [squeue] output in the format of [_get_jobs_list_cmd] *)
Definition sample_row : string :=
  "123<><> R<><> None<><> myjob<><> alice<><> debug<><> 2:00:00<><> 2<><> 8<><> 5:06<><> 4000M".



(** The record of [sample_row] *)
Definition sample_record : QJob.t :=
  QJob.mk (Some "myjob") (Some "123") None (Some QState.RUNNING) (Some SlurmState.RUNNING)
    (Some (QJobInfo.mk None (Some 4096000) (Some 2) (Some 8) None (Some 7200)
             (<["partition" := "debug"]> ∅)))
    None (Some 306) None (<["username" := "alice"]> ∅).

Definition line_feed : string := String "010" "".


(** ** Cancellation *)

Module CancelStatus.
Inductive t : Set := SUCCESSFUL | FAILED | JOB_ID_UNKNOWN.
Definition val (s : t) : string :=
  match s with
  | SUCCESSFUL => "SUCCESSFUL"
  | FAILED => "FAILED"
  | JOB_ID_UNKNOWN => "JOB_ID_UNKNOWN"
  end.
Definition members : list t := [SUCCESSFUL; FAILED; JOB_ID_UNKNOWN].
Definition call : string -> result t := enum_call members val.
End CancelStatus.

Module CancelResult.
Record t : Type := mk {
  job_id : option string;
  step_id : option Z;
  exit_code : option Z;
  stdout : option string;
  stderr : option string;
  status : option CancelStatus.t }.
Definition fields : list string :=
  ["job_id"; "step_id"; "exit_code"; "stdout"; "stderr"; "status"].
End CancelResult.

(** The pattern compiled in [parse_cancel_output]: the same optional prefix
    as for a submission, the phrase "Terminating job", at least one blank
    ([cancelled_prefix]), and the group [jobid] of at least one digit. *)
Definition cancelled_prefix : regex :=
  Cat (Opt (Cat (Star re_dot) (Cat (Lit ":") (Star re_s))))
 (Cat (Lit "Terminating job")
      (Plus re_s)).

Definition _SLURM_CANCELLED_REGEXP : regex :=
  Cat cancelled_prefix (Group "jobid" (Plus re_d)).

(** [parse_cancel_output], on text: the acknowledgement is read from the
    error stream. *)
Definition parse_cancel_output (self : SlurmIO.t) (exit_code : Z) (stdout stderr : string)
  : result CancelResult.t :=
  if negb (exit_code =? 0) then
    do status <- CancelStatus.call "FAILED";
    dataclass_init CancelResult.fields ["exit_code"; "stdout"; "stderr"; "status"]
      (CancelResult.mk None None (Some exit_code) (Some stdout) (Some stderr)
         (Some status))
  else
    let match_ := re_match _SLURM_CANCELLED_REGEXP (strip stderr) in
    let job_id := match match_ with
                  | Some groups => groups !! "jobid"
                  | None => None
                  end in
    do status <- (if truthy job_id
                  then CancelStatus.call "SUCCESSFUL"
                  else CancelStatus.call "JOB_ID_UNKNOWN");
    dataclass_init CancelResult.fields
      ["job_id"; "exit_code"; "stdout"; "stderr"; "status"]
      (CancelResult.mk job_id None (Some exit_code) (Some stdout) (Some stderr)
         (Some status)).

(** [supported_qresources_keys] *)
Definition supported_qresources_keys : list string := map fst _qresources_mapping.

(** ** Auxiliary notions for the statements *)





(** ** The primitives and the methods on sample inputs *)

Example strip_ex : strip (String "009" " ab c  " +:+ String "010" "") = "ab c".
Proof. reflexivity. Qed.

Example split_ex1 : split_on ":" "1-02:03:04" = ["1-02"; "03"; "04"].
Proof. reflexivity. Qed.

Example split_ex2 : split_on "<><>" "a<><><>b<><>" = ["a"; "<>b"; ""].
Proof. reflexivity. Qed.

Example split_ex3 : split_on_max "=" 1 "Comment=a=b" = ["Comment"; "a=b"].
Proof. reflexivity. Qed.

Example split_ws_ex : split_ws "  JobId=1   JobName=x " = ["JobId=1"; "JobName=x"].
Proof. reflexivity. Qed.

Example splitlines_ex :
  splitlines ("a" +:+ String "013" (String "010" "b") +:+ String "010" (String "010" "")) = ["a"; "b"; ""].
Proof. reflexivity. Qed.

Example py_int_ex :
  py_int " 02 " = Ok 2 /\ py_int "-1_000" = Ok (-1000) /\ py_int "1__0" = Raise ValueError
  /\ py_int "" = Raise ValueError /\ py_int "abc" = Raise ValueError.
Proof. repeat split; reflexivity. Qed.

Example SlurmState_call_ex :
  SlurmState.call "CD" = Ok SlurmState.COMPLETED
  /\ SlurmState.call "RUNNING" = Ok SlurmState.RUNNING
  /\ SlurmState.call "BF" = Raise ValueError.
Proof. repeat split; reflexivity. Qed.

Example _convert_time_str_ex :
  _convert_time_str "05:06" = Ok (Some 306)
  /\ _convert_time_str "7" = Ok (Some 420)
  /\ _convert_time_str "02:03:04" = Ok (Some 7384)
  /\ _convert_time_str "UNLIMITED" = Ok None
  /\ _convert_time_str "NOT_SET" = Ok None
  /\ _convert_time_str "abc" = Raise OutputParsingError
  /\ _convert_time_str "1:2:3:4" = Raise OutputParsingError.
Proof. repeat split; reflexivity. Qed.

Example _convert_memory_str_ex :
  _convert_memory_str "4096M" = Ok (4096 * 1024)
  /\ _convert_memory_str "2G" = Ok (2 * 1024 * 1024)
  /\ _convert_memory_str "512K" = Ok 512
  /\ _convert_memory_str "1T" = Ok (1024 * 1024 * 1024)
  /\ _convert_memory_str "abcM" = Raise OutputParsingError
  /\ _convert_memory_str "0" = Raise OutputParsingError
  /\ _convert_memory_str "" = Raise IndexError.
Proof. repeat split; reflexivity. Qed.

Example parse_submit_output_ex :
  parse_submit_output SlurmIO.blank 0 ("Submitted batch job 12345" +:+ String "010" "") ""
  = Ok (SubmissionResult.mk (Some "12345") None (Some 0)
          (Some ("Submitted batch job 12345" +:+ String "010" "")) (Some "")
          (Some SubmissionStatus.SUCCESSFUL)).
Proof. reflexivity. Qed.

Example re_match_ex :
  (re_match _SLURM_SUBMITTED_REGEXP
     "sbatch: a: Submitted batch job 12 x: Submitted batch job 345")
  = Some (<["jobid" := "345"]> ∅)
  /\ re_match _SLURM_SUBMITTED_REGEXP "granted job allocation 7"
     = Some (<["jobid" := "7"]> ∅)
  /\ re_match _SLURM_SUBMITTED_REGEXP "submitted batch job" = None
  /\ re_match _SLURM_SUBMITTED_REGEXP "job 12 Submitted batch job 3" = None.
Proof. repeat split; reflexivity. Qed.

Example _get_jobs_list_cmd_ex :
  _get_jobs_list_cmd sample_adapter ∅ None (Some "bob")
  = (∅, Ok ("SLURM_TIME_FORMAT='standard' squeue --noheader "
            +:+ "-o '%i<><> %t<><> %r<><> %j<><> %u<><> %P<><> %l<><> %D<><> %C<><> %M<><> %m' "
            +:+ "-u bob"))
  /\ (_get_jobs_list_cmd sample_adapter {[ 0%nat := ["1"] ]} (Some 0%nat) (Some "bob")).2
     = Raise ValueError
  /\ (_get_jobs_list_cmd sample_adapter {[ 0%nat := ["1"; "2"] ]} (Some 0%nat) None).1
     = {[ 0%nat := ["1"; "2"] ]}.
Proof. repeat split; reflexivity. Qed.

Example parse_job_output_ex :
  parse_job_output sample_adapter 1 "" "error" = Raise CommandFailedError
  /\ parse_job_output sample_adapter 0 "JobId=1 JobName" "" = Raise IndexError
  /\ parse_job_output sample_adapter 0 "JobId=1 JobState=BOOT_FAIL" "" = Raise ValueError
  /\ parse_job_output sample_adapter 0
       ("JobId=1 JobName=x UserId=u(1) Priority=1 QOS=normal JobState=RUNNING "
        +:+ "TimeLimit=1:00 NumNodes=1 NumCPUs=2 CPUs/Task=1 MinMemoryCPU=4000M "
        +:+ "Partition=debug") ""
     = Raise TypeError.
Proof. repeat split; reflexivity. Qed.

Example parse_cancel_output_ex :
  parse_cancel_output sample_adapter 0 "" ("scancel: Terminating job 80" +:+ line_feed)
  = Ok (CancelResult.mk (Some "80") None (Some 0) (Some "")
          (Some ("scancel: Terminating job 80" +:+ line_feed))
          (Some CancelStatus.SUCCESSFUL))
  /\ parse_cancel_output sample_adapter 0 "scancel: Terminating job 80" ""
     = Ok (CancelResult.mk None None (Some 0) (Some "scancel: Terminating job 80") (Some "")
             (Some CancelStatus.JOB_ID_UNKNOWN)).
Proof. split; reflexivity. Qed.

(** ** Text *)

#[local] Arguments String.append !_ _ : simpl nomatch.

Lemma str_app_assoc (a b c : string) : (a +:+ b) +:+ c = a +:+ (b +:+ c).
Proof. induction a as [|x a IH]; simpl; [reflexivity | now rewrite IH]. Qed.


Lemma str_length_app (a b : string) :
  String.length (a +:+ b) = (String.length a + String.length b)%nat.
Proof. induction a as [|x a IH]; simpl; [reflexivity | now rewrite IH]. Qed.

Lemma prefix_rest_app (p s : string) : prefix_rest p (p +:+ s) = Some s.
Proof.
  induction p as [|a p IH]; simpl; [reflexivity|].
  now rewrite Ascii.eqb_refl.
Qed.

Lemma prefix_rest_Some (p s r : string) : prefix_rest p s = Some r -> s = p +:+ r.
Proof.
  revert s; induction p as [|a p IH]; intros s; simpl.
  - now intros [= ->].
  - destruct s as [|b s]; [discriminate|].
    destruct (Ascii.eqb a b) eqn:E; [|discriminate].
    apply Ascii.eqb_eq in E as ->. intros H. now rewrite (IH _ H).
Qed.

Lemma consumed_app (a b : string) : consumed (a +:+ b) b = a.
Proof.
  unfold consumed. rewrite str_length_app.
  replace (String.length a + String.length b - String.length b)%nat
    with (String.length a) by lia.
  induction a as [|x a IH]; simpl.
  - now destruct b.
  - now rewrite IH.
Qed.

(** ** The matcher against the language of a pattern *)

Lemma star_ends_self p s : In s (star_ends p s).
Proof.
  destruct s as [|c s]; simpl; [now left|].
  destruct (p c); [apply in_or_app; right|]; now left.
Qed.

Lemma star_ends_sound p s s2 :
  In s2 (star_ends p s) -> exists s1, s = s1 +:+ s2 /\ in_lang (Star p) s1.
Proof.
  revert s2; induction s as [|c s IH]; intros s2; simpl.
  - intros [<-|[]]. exists "". split; [reflexivity | constructor].
  - destruct (p c) eqn:Hc.
    + intros H. apply in_app_or in H as [H|[<-|[]]].
      * destruct (IH _ H) as (s1 & -> & Hs1).
        exists (String c s1). split; [reflexivity | now constructor].
      * exists "". split; [reflexivity | constructor].
    + intros [<-|[]]. exists "". split; [reflexivity | constructor].
Qed.

Lemma in_lang_Star_forall p s : in_lang (Star p) s <-> str_forall p s = true.
Proof.
  split.
  - induction s as [|c s IH]; intros H; [reflexivity|].
    inversion H; subst. simpl. rewrite IH by assumption.
    now rewrite andb_true_r.
  - induction s as [|c s IH]; simpl; intros H; [constructor|].
    apply andb_true_iff in H as [Hc Hs]. constructor; auto.
Qed.

Lemma star_ends_complete p s1 s2 :
  str_forall p s1 = true -> In s2 (star_ends p (s1 +:+ s2)).
Proof.
  induction s1 as [|c s1 IH]; simpl; intros H.
  - apply star_ends_self.
  - apply andb_true_iff in H as [Hc Hs]. rewrite Hc.
    apply in_or_app; left; auto.
Qed.

(** The longest run comes first. *)
Lemma star_ends_head p s x l :
  star_ends p s = x :: l ->
  starts_in p x = false /\ exists d, s = d +:+ x /\ str_forall p d = true.
Proof.
  revert x l; induction s as [|c s IH]; intros x l; simpl.
  - intros [= <- <-]. split; [reflexivity|]. now exists "".
  - destruct (p c) eqn:Hc.
    + destruct (star_ends p s) as [|y l'] eqn:E.
      * pose proof (star_ends_self p s) as Hin. rewrite E in Hin. destruct Hin.
      * simpl. intros [= <- <-].
        destruct (IH _ _ eq_refl) as (Hx & d & -> & Hd).
        split; [assumption|]. exists (String c d). simpl. now rewrite Hc, Hd.
    + intros [= <- <-]. simpl. split; [assumption|]. now exists "".
Qed.

Lemma in_lang_Plus_forall p s :
  in_lang (Plus p) s <-> s <> "" /\ str_forall p s = true.
Proof.
  split.
  - intros H; inversion H as [| | | | | | | | |p' c s' Hc Hs|]; subst.
    split; [discriminate|].
    simpl. apply in_lang_Star_forall in Hs. now rewrite Hc, Hs.
  - intros [Hne H]. destruct s as [|c s]; [congruence|].
    simpl in H. apply andb_true_iff in H as [Hc Hs].
    constructor; [assumption | now apply in_lang_Star_forall].
Qed.

(** Whatever the matcher returns is a split of the text after a word of the
    pattern. *)
Lemma ends_sound r : forall s g e,
  In e (ends r s g) -> exists s1, s = s1 +:+ e.1 /\ in_lang r s1.
Proof.
  induction r as [p|l|r1 IH1 r2 IH2|r1 IH1 r2 IH2|r1 IH1|p|p|n r1 IH1];
    intros s g e; simpl.
  - destruct s as [|c s]; [intros []|].
    destruct (p c) eqn:Hc; [|intros []].
    intros [<-|[]]. exists (String c ""). split; [reflexivity | now constructor].
  - destruct (prefix_rest l s) as [s'|] eqn:E; [|intros []].
    intros [<-|[]]. exists l. split; [now apply prefix_rest_Some | constructor].
  - intros H. apply in_flat_map in H as (e1 & H1 & H2).
    destruct (IH1 _ _ _ H1) as (s1 & -> & L1).
    destruct (IH2 _ _ _ H2) as (s2 & E2 & L2).
    exists (s1 +:+ s2). rewrite E2 at 1. rewrite str_app_assoc.
    split; [reflexivity | now constructor].
  - intros H. apply in_app_or in H as [H|H].
    + destruct (IH1 _ _ _ H) as (s1 & -> & L1). exists s1. split; [reflexivity | now constructor].
    + destruct (IH2 _ _ _ H) as (s1 & -> & L1). exists s1. split; [reflexivity | now apply in_Alt_r].
  - intros H. apply in_app_or in H as [H|[<-|[]]].
    + destruct (IH1 _ _ _ H) as (s1 & -> & L1). exists s1. split; [reflexivity | now constructor].
    + exists "". split; [reflexivity | apply in_Opt_none].
  - intros H. apply in_map_iff in H as (s' & <- & H).
    now apply star_ends_sound.
  - destruct s as [|c s]; [intros []|].
    destruct (p c) eqn:Hc; [|intros []].
    intros H. apply in_map_iff in H as (s' & <- & H).
    apply star_ends_sound in H as (s1 & -> & L1).
    exists (String c s1). split; [reflexivity | now constructor].
  - intros H. apply in_map_iff in H as (e1 & <- & H).
    destruct (IH1 _ _ _ H) as (s1 & -> & L1). exists s1. split; [reflexivity | now constructor].
Qed.

(** Every split of the text after a word of the pattern is found. *)
Lemma ends_complete r s1 :
  in_lang r s1 -> forall s2 g, exists g', In (s2, g') (ends r (s1 +:+ s2) g).
Proof.
  induction 1 as [p c Hc|l|r1 r2 s1 s2' _ IH1 _ IH2|r1 r2 s _ IH|r1 r2 s _ IH
                  |r s _ IH| r |p|p c s Hc Hs IH|p c s Hc Hs _|n r s _ IH];
    intros s2 g; simpl.
  - rewrite Hc. exists g. now left.
  - rewrite prefix_rest_app. exists g. now left.
  - rewrite str_app_assoc.
    destruct (IH1 (s2' +:+ s2) g) as (g1 & H1).
    destruct (IH2 s2 g1) as (g2 & H2).
    exists g2. apply in_flat_map. now exists (s2' +:+ s2, g1).
  - destruct (IH s2 g) as (g' & H). exists g'. apply in_or_app. now left.
  - destruct (IH s2 g) as (g' & H). exists g'. apply in_or_app. now right.
  - destruct (IH s2 g) as (g' & H). exists g'. apply in_or_app. now left.
  - exists g. apply in_or_app. right. now left.
  - exists g. apply in_map_iff. exists s2. split; [reflexivity | apply star_ends_self].
  - exists g. apply in_map_iff. exists s2. split; [reflexivity|].
    rewrite Hc. apply in_or_app. left.
    apply star_ends_complete. now apply in_lang_Star_forall.
  - rewrite Hc. exists g. apply in_map_iff. exists s2. split; [reflexivity|].
    apply star_ends_complete. now apply in_lang_Star_forall.
  - destruct (IH s2 g) as (g' & H).
    exists (<[n := consumed (s +:+ s2) s2]> g').
    apply in_map_iff. now exists (s2, g').
Qed.

Lemma classic_matches r s : matches_at_start r s \/ ~ matches_at_start r s.
Proof.
  destruct (ends r s ∅) as [|e l] eqn:E.
  - right. intros (s1 & s2 & -> & L).
    destruct (ends_complete r s1 L s2 ∅) as (g' & H). rewrite E in H. destruct H.
  - left. destruct (ends_sound r s ∅ e) as (s1 & Hs & L); [rewrite E; now left|].
    now exists s1, e.1.
Qed.

(** [pattern.match] finds a match exactly when the text starts with a word
    of the pattern. *)
Lemma re_match_None r s : re_match r s = None <-> ~ matches_at_start r s.
Proof.
  unfold re_match, matches_at_start. split.
  - destruct (ends r s ∅) as [|e l] eqn:E; [|discriminate].
    intros _ (s1 & s2 & -> & L).
    destruct (ends_complete r s1 L s2 ∅) as (g' & H). rewrite E in H. destruct H.
  - intros H. destruct (ends r s ∅) as [|e l] eqn:E; [reflexivity|].
    exfalso. apply H.
    destruct (ends_sound r s ∅ e) as (s1 & Hs & L); [rewrite E; now left|].
    now exists s1, e.1.
Qed.

Lemma re_match_Some r s g : re_match r s = Some g -> matches_at_start r s.
Proof.
  intros H. destruct (re_match_None r s) as [_ Hno].
  destruct (classic_matches r s) as [Hm|Hm]; [assumption|].
  rewrite (Hno Hm) in H. discriminate.
Qed.

Lemma flat_map_head {A B} (f : A -> list B) (l : list A) (y : B) (ys : list B) :
  flat_map f l = y :: ys -> exists x ys', In x l /\ f x = y :: ys'.
Proof.
  induction l as [|x l IH]; simpl; [discriminate|].
  destruct (f x) as [|y' l'] eqn:E; simpl.
  - intros H. destruct (IH H) as (x' & ys' & Hin & Hx'). exists x', ys'. auto.
  - intros [= -> _]. exists x, l'. auto.
Qed.

(** A pattern that ends in a named group of one repeated class: the first
    match binds the group to the longest run of the class that follows a
    word of the rest of the pattern. *)
Lemma re_match_last_group r n p s g :
  re_match (Cat r (Group n (Plus p))) s = Some g ->
  exists pre id post,
    s = pre +:+ id +:+ post /\ in_lang r pre /\ in_lang (Plus p) id
    /\ starts_in p post = false /\ g !! n = Some id.
Proof.
  unfold re_match. simpl.
  destruct (flat_map _ _) as [|e l] eqn:E; [discriminate|]. intros [= <-].
  apply flat_map_head in E as (e1 & l' & H1 & E).
  destruct (ends_sound _ _ _ _ H1) as (pre & -> & Lpre).
  destruct e1 as [s' g1]; simpl in *.
  destruct s' as [|c s']; [discriminate|].
  destruct (p c) eqn:Hc; [|discriminate].
  destruct (star_ends p s') as [|x xs] eqn:Ex; [discriminate|].
  simpl in E. injection E as <- _.
  apply star_ends_head in Ex as (Hx & d & -> & Hd). simpl.
  exists pre, (String c d), x. repeat split; try assumption.
  - constructor; [assumption | now apply in_lang_Star_forall].
  - change (String c (d +:+ x)) with (String c d +:+ x).
    rewrite consumed_app. apply lookup_insert_eq.
Qed.

(** ** Submission acknowledgement *)

Lemma dataclass_init_ok {A} (fields kwargs : list string) (obj : A) :
  forallb (fun k => existsb (String.eqb k) fields) kwargs = true ->
  dataclass_init fields kwargs obj = Ok obj.
Proof. unfold dataclass_init. now intros ->. Qed.



(** ** The status mapping *)

(** C5. The status mapping is defined on each of the twelve raw states of
    SLURM; CANCELLED is mapped to SUSPENDED, COMPLETING to RUNNING, and
    OUT_OF_MEMORY, NODE_FAIL, DEADLINE and TIMEOUT to FAILED. *)
Theorem status_mapping_total :
  length SlurmState.members = 12%nat
  /\ (forall s : SlurmState.t, In s SlurmState.members)
  /\ (forall s : SlurmState.t, exists q, status_mapping_get s = Ok q)
  /\ status_mapping_get SlurmState.CANCELLED = Ok QState.SUSPENDED
  /\ status_mapping_get SlurmState.COMPLETING = Ok QState.RUNNING
  /\ status_mapping_get SlurmState.OUT_OF_MEMORY = Ok QState.FAILED
  /\ status_mapping_get SlurmState.NODE_FAIL = Ok QState.FAILED
  /\ status_mapping_get SlurmState.DEADLINE = Ok QState.FAILED
  /\ status_mapping_get SlurmState.TIMEOUT = Ok QState.FAILED.
Proof.
  split; [reflexivity|]. split.
  - intros s; destruct s; simpl; tauto.
  - split; [|repeat split; reflexivity].
    intros s; destruct s; eexists; reflexivity.
Qed.

(** ** Unit conversion *)

(** C1. On "1-02:03:04" [_convert_time_str] returns 90184 seconds: the text
    before the dash is taken as the days and again as the hours, and the
    hours "02" are dropped, so the result is not
    days*86400 + hours*3600 + minutes*60 + seconds = 93784.  Without a day
    part the conversion is as stated: "05:06" gives 306, "UNLIMITED" and
    "NOT_SET" give no value, and "abc" raises the parsing error. *)
Theorem _convert_time_str_day_taken_as_hours :
  _convert_time_str "1-02:03:04" = Ok (Some 90184)
  /\ 90184 = 1 * 86400 + 1 * 3600 + 3 * 60 + 4
  /\ 90184 <> 1 * 86400 + 2 * 3600 + 3 * 60 + 4
  /\ _convert_time_str "05:06" = Ok (Some 306)
  /\ _convert_time_str "UNLIMITED" = Ok None
  /\ _convert_time_str "NOT_SET" = Ok None
  /\ _convert_time_str "abc" = Raise OutputParsingError.
Proof. repeat split; try reflexivity. discriminate. Qed.

(** With a day part the hours are never read: whatever follows the dash in
    the first field, the days are counted once as days and once as hours. *)
Lemma _convert_time_str_with_days (time_str first m s d : string) (dtail : list string)
    (D M S : Z) :
  time_str <> "" -> time_str <> "UNLIMITED" -> time_str <> "NOT_SET" ->
  split_on ":" time_str = [first; m; s] ->
  contains "-" first = true ->
  split_on "-" first = d :: dtail ->
  py_int d = Ok D -> py_int m = Ok M -> py_int s = Ok S ->
  _convert_time_str time_str = Ok (Some (D * 86400 + D * 3600 + M * 60 + S)).
Proof.
  intros H0 H1 H2 Hsplit Hdash Hday Hd Hm Hs. unfold _convert_time_str.
  apply String.eqb_neq in H0, H1, H2. rewrite H0. cbn [existsb]. rewrite H1, H2.
  cbn [orb]. rewrite Hsplit. unfold list_get at 1. cbn [lookup list_lookup bind].
  rewrite Hdash, Hday. unfold list_get. cbn [lookup list_lookup bind tail].
  rewrite Hd. cbn [bind]. rewrite Hd, Hm. cbn [bind]. rewrite Hs. reflexivity.
Qed.

(** Without a day part the three fields are hours, minutes and seconds. *)
Lemma _convert_time_str_without_days (time_str h m s : string) (H M S : Z) :
  time_str <> "" -> time_str <> "UNLIMITED" -> time_str <> "NOT_SET" ->
  split_on ":" time_str = [h; m; s] ->
  contains "-" h = false ->
  py_int h = Ok H -> py_int m = Ok M -> py_int s = Ok S ->
  _convert_time_str time_str = Ok (Some (0 * 86400 + H * 3600 + M * 60 + S)).
Proof.
  intros H0 H1 H2 Hsplit Hdash Hh Hm Hs. unfold _convert_time_str.
  apply String.eqb_neq in H0, H1, H2. rewrite H0. cbn [existsb]. rewrite H1, H2.
  cbn [orb]. rewrite Hsplit. unfold list_get at 1. cbn [lookup list_lookup bind].
  rewrite Hdash. cbn [bind]. rewrite Hh. cbn [bind]. rewrite Hm. cbn [bind].
  rewrite Hs. reflexivity.
Qed.

Lemma digits_go_chars s : forall acc b v,
  digits_go acc b s = Some v -> str_forall int_char s = true.
Proof.
  induction s as [|c s IH]; intros acc b v; simpl; [reflexivity|].
  unfold int_char at 1.
  destruct (is_digit c) eqn:Hd.
  - intros H. rewrite (IH _ _ _ H). now rewrite orb_true_r.
  - destruct (Ascii.eqb c "_") eqn:Hu; simpl; [|discriminate].
    destruct b; simpl; [|discriminate].
    intros H. rewrite (IH _ _ _ H). now rewrite !orb_true_r.
Qed.

Lemma lstrip_forall p s :
  (forall c, is_space c = true -> p c = true) ->
  str_forall p (lstrip s) = true -> str_forall p s = true.
Proof.
  intros Hp. induction s as [|c s IH]; simpl; [reflexivity|].
  destruct (is_space c) eqn:Hc; simpl; [|tauto].
  intros H. now rewrite (Hp _ Hc), IH.
Qed.

Lemma rstrip_forall p s :
  (forall c, is_space c = true -> p c = true) ->
  str_forall p (rstrip s) = true -> str_forall p s = true.
Proof.
  intros Hp. induction s as [|c s IH]; simpl; [reflexivity|].
  destruct (rstrip s) as [|c' r] eqn:E.
  - destruct (is_space c) eqn:Hc; simpl.
    + intros _. rewrite (Hp _ Hc). now apply IH.
    + rewrite andb_true_r. intros ->. now apply IH.
  - simpl. intros H. apply andb_true_iff in H as [-> H]. now apply IH.
Qed.

Lemma py_int_chars s v : py_int s = Ok v -> str_forall int_char s = true.
Proof.
  unfold py_int, strip. intros H.
  apply lstrip_forall; [intros c Hc; unfold int_char; now rewrite Hc|].
  apply rstrip_forall; [intros c Hc; unfold int_char; now rewrite Hc|].
  destruct (rstrip (lstrip s)) as [|c r]; [reflexivity|].
  destruct (Ascii.eqb c "+") eqn:Hplus; [|destruct (Ascii.eqb c "-") eqn:Hminus].
  - destruct (digits_go 0 false r) eqn:E; [|discriminate].
    simpl. unfold int_char at 1. rewrite Hplus, (digits_go_chars _ _ _ _ E).
    now rewrite !orb_true_r.
  - destruct (digits_go 0 false r) eqn:E; [|discriminate].
    simpl. unfold int_char at 1. rewrite Hminus, (digits_go_chars _ _ _ _ E).
    now rewrite !orb_true_r.
  - destruct (digits_go 0 false (String c r)) eqn:E; [|discriminate].
    eapply digits_go_chars; eassumption.
Qed.

Lemma contains_char_forall p c s :
  str_forall p s = true -> contains (String c "") s = true -> p c = true.
Proof.
  induction s as [|a s IH]; simpl; [discriminate|].
  intros H. apply andb_true_iff in H as [Ha Hs].
  destruct (Ascii.eqb c a) eqn:E.
  - apply Ascii.eqb_eq in E as ->. auto.
  - auto.
Qed.

(** A text that holds a unit letter is not an integer literal. *)
Lemma py_int_raises s e : py_int s = Raise e -> e = ValueError.
Proof.
  unfold py_int.
  destruct (strip s) as [|c r]; [now intros [= <-]|].
  destruct (Ascii.eqb c "+"); [|destruct (Ascii.eqb c "-")];
    repeat match goal with
           | |- context [digits_go ?a ?b ?r] => destruct (digits_go a b r)
           end; simpl; congruence.
Qed.

(** A text that holds a unit letter is not an integer literal. *)
Lemma py_int_unit_letter (u : ascii) (s : string) :
  int_char u = false -> contains (String u "") s = true -> py_int s = Raise ValueError.
Proof.
  intros Hu Hc. destruct (py_int s) as [v|e] eqn:E.
  - apply py_int_chars in E. rewrite (contains_char_forall _ _ _ E Hc) in Hu. discriminate.
  - now rewrite (py_int_raises _ _ E).
Qed.

(** C2. A memory text without a unit letter is not given the unit M: on
    "4096" the last digit is taken as the unit and the lookup of "6" in the
    table of units fails with a KeyError, where 4096 * 1024 is expected.
    The branch that assumes M is taken only when the text holds each of the
    letters K, M, G and T, and then always raises the parsing error.  With
    a unit letter the conversion is as stated ("4096M", "2G"), and a prefix
    that is not an integer raises the parsing error. *)
Theorem _convert_memory_str_no_default_unit :
  _convert_memory_str "4096" = Raise KeyError
  /\ (forall memory : string,
        forallb (fun u => contains u memory) ["K"; "M"; "G"; "T"] = true ->
        _convert_memory_str memory = Raise OutputParsingError)
  /\ _convert_memory_str "4096M" = Ok (4096 * 1024)
  /\ _convert_memory_str "2G" = Ok (2 * 1024 * 1024)
  /\ _convert_memory_str "abcM" = Raise OutputParsingError.
Proof.
  split; [reflexivity|]. split; [|repeat split; reflexivity].
  intros memory H. unfold _convert_memory_str. rewrite H. simpl.
  simpl in H. apply andb_true_iff in H as [HK _].
  now rewrite (py_int_unit_letter "K" memory eq_refl HK).
Qed.

(** ** Resources *)

(** C8. [_convert_qresources] returns no directive mapping for any
    [QResources]: the mapping table names the field [hold], which
    [QResources] does not have, and reading it raises AttributeError; this
    is so too when only the queue name is set, where the mapping with the
    single directive [partition] is expected. *)
Theorem _convert_qresources_raises :
  (forall resources : QResources.t,
     _convert_qresources resources = Raise AttributeError)
  /\ _convert_qresources
       (QResources.mk (Some "debug") None None None None None None None None None None
          None None)
     = Raise AttributeError
  /\ QResources.getattr QResources.default "hold" = Raise AttributeError.
Proof.
  split; [|split; reflexivity].
  intros resources. reflexivity.
Qed.

(** ** Construction *)

(** C9. Constructing the adapter does not run the method that sets the two
    configuration attributes: the class body binds it to the name [__int__],
    so construction is that of the base class.  With the initialiser of
    [object], passing the executable and the separator is refused with a
    TypeError, and the instance built without arguments has neither
    attribute: the job query and the jobs-list parser then fail with
    AttributeError. *)
Theorem SlurmIO_construction_sets_nothing :
  (forall (base_init : SlurmIO.t -> list string -> result SlurmIO.t) (args : list string),
     SlurmIO.new base_init args = base_init SlurmIO.blank args)
  /\ SlurmIO.new SlurmIO.object_init ["scontrol"; "<><>"] = Raise TypeError
  /\ SlurmIO.new SlurmIO.object_init [] = Ok SlurmIO.blank
  /\ (forall job_id : string, _get_job_cmd SlurmIO.blank job_id = Raise AttributeError)
  /\ parse_jobs_list_output SlurmIO.blank 0 "1<><> R" "" = Raise AttributeError.
Proof. repeat split. Qed.

(** ** The jobs-list command *)

(** The command for one job id, and the list object after the call *)
Lemma _get_jobs_list_cmd_single (self : SlurmIO.t) (sep : string) (h : heap)
    (l : nat) (j : string) :
  SlurmIO.split_separator self = Some sep ->
  h !! l = Some [j] ->
  _get_jobs_list_cmd self h (Some l) None
  = (<[l := [j; j]]> h,
     Ok (join " " ["SLURM_TIME_FORMAT='standard'"; "squeue"; "--noheader";
                   "-o '" +:+ join (sep +:+ " ") (map fst squeue_fields) +:+ "'";
                   "--jobs=" +:+ j +:+ "," +:+ j])).
Proof.
  intros Hsep Hl. unfold _get_jobs_list_cmd. rewrite Hsep, Hl. simpl.
  now rewrite lookup_insert_eq.
Qed.

(** C10. [_get_jobs_list_cmd] changes its argument: called with a list that
    holds one job id, it appends that id to the caller's list object, which
    holds the id twice after the call.  The caller's list ["123"] is
    ["123"; "123"] afterwards. *)
Theorem _get_jobs_list_cmd_mutates_job_ids :
  (forall (self : SlurmIO.t) (sep : string) (h : heap) (l : nat) (j : string),
     SlurmIO.split_separator self = Some sep ->
     h !! l = Some [j] ->
     (_get_jobs_list_cmd self h (Some l) None).1 !! l = Some [j; j])
  /\ (let self := SlurmIO.mk (Some "scontrol") (Some "<><>") in
      let h : heap := {[ 0%nat := ["123"] ]} in
      (_get_jobs_list_cmd self h (Some 0%nat) None).1 !! 0%nat = Some ["123"; "123"]
      /\ (_get_jobs_list_cmd self h (Some 0%nat) None).1 <> h).
Proof.
  split.
  - intros self sep h l j Hsep Hl.
    rewrite (_get_jobs_list_cmd_single self sep h l j Hsep Hl). simpl.
    apply lookup_insert_eq.
  - simpl. split; [reflexivity|].
    intros H. apply (f_equal (fun m : heap => m !! 0%nat)) in H.
    vm_compute in H. discriminate.
Qed.

Lemma _get_jobs_list_cmd_mutates_job_ids_witness :
  (_get_jobs_list_cmd (SlurmIO.mk None (Some "|")) {[ 7%nat := ["42"] ]} (Some 7%nat) None).1
    !! 7%nat = Some ["42"; "42"].
Proof.
  apply (proj1 _get_jobs_list_cmd_mutates_job_ids (SlurmIO.mk None (Some "|")) "|");
    reflexivity.
Defined.

(** ** Loops and rows *)

Lemma for_each_Ok {A B} (f : A -> result B) (l : list A) (ys : list B) :
  for_each f l = Ok ys <-> Forall2 (fun x y => f x = Ok y) l ys.
Proof.
  revert ys; induction l as [|x l IH]; intros ys; simpl.
  - split.
    + intros [= <-]. constructor.
    + intros H. inversion H. reflexivity.
  - split.
    + destruct (f x) as [y|e] eqn:Hx; simpl; [|discriminate].
      destruct (for_each f l) as [ys'|e] eqn:Hl; simpl; [|discriminate].
      intros [= <-]. constructor; [assumption | now apply IH].
    + intros H. inversion H as [|x' y l' ys' Hx Hl]; subst.
      rewrite Hx. simpl. apply IH in Hl. now rewrite Hl.
Qed.

Lemma for_each_first_Raise {A B} (f : A -> result B) (pre post : list A) (x : A)
    (ys : list B) (e : exn) :
  Forall2 (fun x y => f x = Ok y) pre ys ->
  f x = Raise e ->
  for_each f (pre ++ x :: post)%list = Raise e.
Proof.
  intros Hpre Hx. induction Hpre as [|a y pre ys Ha _ IH]; simpl.
  - now rewrite Hx.
  - now rewrite Ha, IH.
Qed.


(** The rows are the lines that contain the separator, split at it. *)
Lemma jobdata_raw_rows (self : SlurmIO.t) (sep stdout : string) :
  SlurmIO.split_separator self = Some sep -> sep <> "" ->
  jobdata_raw self stdout
  = Ok (map (split_on sep) (List.filter (contains sep) (splitlines stdout))).
Proof.
  intros Hsep Hne. unfold jobdata_raw. rewrite Hsep. simpl.
  assert (H : forall lines,
    for_each (fun chunk =>
                if contains sep chunk
                then do data <- py_split sep chunk; Ok (Some data)
                else Ok None) lines
    = Ok (map (fun chunk => if contains sep chunk
                            then Some (split_on sep chunk) else None) lines)).
  { induction lines as [|c lines IH]; simpl; [reflexivity|].
    rewrite IH. unfold py_split. apply String.eqb_neq in Hne. rewrite Hne.
    now destruct (contains sep c). }
  rewrite H. simpl. f_equal.
  induction (splitlines stdout) as [|c lines IH]; simpl; [reflexivity|].
  destruct (contains sep c); simpl; [f_equal|]; exact IH.
Qed.

Lemma jobs_list_entry_wrong_count (data : list string) :
  length data <> 11%nat -> jobs_list_entry data = Raise OutputParsingError.
Proof.
  intros H. unfold jobs_list_entry.
  change (length squeue_fields) with 11%nat.
  apply Nat.eqb_neq in H. now rewrite H.
Qed.

(** What the conversions can raise *)
Lemma try_reraise_raises {A} (m : result A) e :
  (forall e0, m = Raise e0 -> e0 = ValueError \/ e0 = OutputParsingError) ->
  try_reraise m ValueError OutputParsingError = Raise e -> e = OutputParsingError.
Proof.
  intros H. destruct m as [a|e0]; simpl; [discriminate|].
  destruct (H e0 eq_refl) as [-> | ->]; simpl; congruence.
Qed.

Lemma bind_raises {A B} (m : result A) (k : A -> result B) (P : exn -> Prop) :
  (forall e, m = Raise e -> P e) ->
  (forall a e, m = Ok a -> k a = Raise e -> P e) ->
  forall e, bind m k = Raise e -> P e.
Proof.
  intros Hm Hk e. destruct m as [a|e0]; simpl.
  - now apply Hk.
  - intros [= <-]. now apply Hm.
Qed.

Lemma split_go_nonempty sep s : forall limit skip, split_go sep limit skip s <> [].
Proof.
  induction s as [|c s IH]; intros limit skip; simpl; [discriminate|].
  destruct skip as [|k]; [|apply IH].
  destruct limit as [|l]; [|destruct (prefix_rest sep (String c s)); [discriminate|]];
    destruct (split_go sep _ 0 s); discriminate.
Qed.

Lemma _convert_time_str_raises s e :
  _convert_time_str s = Raise e -> e = OutputParsingError.
Proof.
  unfold _convert_time_str.
  destruct (String.eqb s ""); [discriminate|].
  destruct (existsb _ _); [discriminate|].
  set (P := fun e0 : exn => e0 = ValueError \/ e0 = OutputParsingError).
  assert (Hint : forall t (k : Z -> result (Z * Z * Z * Z)),
            (forall v e0, k v = Raise e0 -> P e0) ->
            forall e0, bind (py_int t) k = Raise e0 -> P e0).
  { intros t k Hk. apply (bind_raises _ _ P).
    - intros e0 H. left. now apply py_int_raises in H.
    - intros a e0 _. apply Hk. }
  assert (Hshape : forall (days : Z) (ts : list string) e0,
            match ts with
            | [h; m; s0] =>
                do hours <- py_int h; do minutes <- py_int m;
                do seconds <- py_int s0; Ok (days, hours, minutes, seconds)
            | [m; s0] =>
                do minutes <- py_int m; do seconds <- py_int s0;
                Ok (days, 0, minutes, seconds)
            | [m] => do minutes <- py_int m; Ok (days, 0, minutes, 0)
            | _ => Raise OutputParsingError
            end = Raise e0 -> P e0).
  { intros days ts e0.
    destruct ts as [|a [|b [|c [|d ts]]]].
    - intros [= <-]. now right.
    - apply Hint. discriminate.
    - apply Hint. intros v e1. apply Hint. discriminate.
    - apply Hint. intros v e1. apply Hint. intros v' e2. apply Hint. discriminate.
    - intros [= <-]. now right. }
  revert e. apply (bind_raises _ _ (fun e => e = OutputParsingError)).
  - intros e. apply try_reraise_raises. fold P.
    destruct (split_on ":" s) as [|first rest] eqn:Esplit.
    { now apply split_go_nonempty in Esplit. }
    unfold list_get at 1. simpl lookup. cbv iota. simpl bind at 1.
    destruct (contains "-" first).
    + destruct (split_on "-" first) as [|day rest'] eqn:Eday.
      { now apply split_go_nonempty in Eday. }
      unfold list_get. simpl lookup. cbv iota. simpl bind at 1.
      apply (bind_raises _ _ P).
      * apply (bind_raises _ _ P).
        -- intros e2 H2. left. now apply py_int_raises in H2.
        -- intros a e2 _. simpl. discriminate.
      * intros [days ts] e1 _. apply Hshape.
    + simpl bind at 1. intros e0. exact (Hshape 0 (first :: rest) e0).
  - intros [[[d h] m] s0] e0 _. discriminate.
Qed.

(** The loop body on a row of eleven fields, with the lookups in the row
    dictionary resolved *)
Lemma jobs_list_entry_11 (id st ann name user part tl nn nc tu mm : string) :
  jobs_list_entry [id; st; ann; name; user; part; tl; nn; nc; tu; mm] =
    do slurm_job_state <-
      try_reraise (SlurmState.call (strip st)) ValueError OutputParsingError;
    do state <- status_mapping_get slurm_job_state;
    do nodes <- try_except (do v <- py_int (strip nn); Ok (Some v)) ValueError None;
    do cpus <- try_except (do v <- py_int (strip nc); Ok (Some v)) ValueError None;
    do memory_per_cpu <-
      try_except (do v <- _convert_memory_str (strip mm); Ok (Some v))
                 OutputParsingError None;
    do time_limit <- _convert_time_str (strip tl);
    do runtime <- try_except (_convert_time_str (strip tu)) OutputParsingError None;
    Ok (QJob.mk (Some (strip name)) (Some (strip id)) None (Some state)
          (Some slurm_job_state)
          (Some (QJobInfo.mk None memory_per_cpu nodes cpus None time_limit
                   (<["partition" := strip part]> ∅)))
          None runtime None (<["username" := strip user]> ∅)).
Proof. reflexivity. Qed.

Lemma status_mapping_get_defined (s : SlurmState.t) : exists q, status_mapping_get s = Ok q.
Proof. destruct s; eexists; reflexivity. Qed.

Lemma for_each_Forall {A B} (f : A -> result B) (R : A -> B -> Prop) (l : list A) :
  (forall x, In x l -> exists y, f x = Ok y /\ R x y) ->
  exists ys, for_each f l = Ok ys /\ Forall2 R l ys.
Proof.
  induction l as [|x l IH]; intros H; simpl.
  - exists []. split; [reflexivity | constructor].
  - destruct (H x) as (y & Hy & Ry); [now left|].
    destruct IH as (ys & Hys & Rys); [intros x' Hx'; apply H; now right|].
    exists (y :: ys). rewrite Hy, Hys. split; [reflexivity | now constructor].
Qed.

(** ** The jobs list *)




(** C3, amended.  The command built for one job id ends with the
    filter [--jobs=] followed by the id, a comma and the id again.  The
    parser returns one record for each row of the output, in order, and
    does not compare job ids: when every row gives a record, the call
    returns exactly these records, as many as there are rows, so an output
    with one row for the job gives one record. *)
Theorem single_job_id_query
    (self : SlurmIO.t) (sep : string) (h : heap) (l : nat) (j stdout stderr : string)
    (qs : list QJob.t) :
  SlurmIO.split_separator self = Some sep -> sep <> "" ->
  h !! l = Some [j] ->
  let rows := map (split_on sep) (List.filter (contains sep) (splitlines stdout)) in
  Forall2 (fun data q => jobs_list_entry data = Ok q) rows qs ->
  (_get_jobs_list_cmd self h (Some l) None).2
  = Ok (join " " ["SLURM_TIME_FORMAT='standard'"; "squeue"; "--noheader";
                  "-o '" +:+ join (sep +:+ " ") (map fst squeue_fields) +:+ "'";
                  "--jobs=" +:+ j +:+ "," +:+ j])
  /\ parse_jobs_list_output self 0 stdout stderr = Ok qs
  /\ length qs = length rows.
Proof.
  intros Hsep Hne Hl rows Hrows.
  rewrite (_get_jobs_list_cmd_single self sep h l j Hsep Hl).
  split; [reflexivity|]. split.
  - unfold parse_jobs_list_output. simpl negb. cbv iota.
    rewrite (jobdata_raw_rows self sep stdout Hsep Hne). fold rows. simpl bind.
    now apply for_each_Ok.
  - symmetry. eapply Forall2_length; eassumption.
Qed.

Lemma single_job_id_query_witness :
  (_get_jobs_list_cmd sample_adapter {[ 0%nat := ["123"] ]} (Some 0%nat) None).2
  = Ok (join " " ["SLURM_TIME_FORMAT='standard'"; "squeue"; "--noheader";
                  "-o '" +:+ join ("<><>" +:+ " ") (map fst squeue_fields) +:+ "'";
                  "--jobs=" +:+ "123" +:+ "," +:+ "123"])
  /\ parse_jobs_list_output sample_adapter 0 (sample_row +:+ line_feed) ""
     = Ok [sample_record]
  /\ length [sample_record]
     = length (map (split_on "<><>")
                 (List.filter (contains "<><>") (splitlines (sample_row +:+ line_feed)))).
Proof.
  apply (single_job_id_query sample_adapter "<><>" {[ 0%nat := ["123"] ]} 0%nat "123"
           (sample_row +:+ line_feed) "" [sample_record]).
  - reflexivity.
  - discriminate.
  - reflexivity.
  - repeat constructor.
Defined.

(** C3, as stated, fails on an output that holds the row of the job twice:
    the command asks for the id twice, and the parser returns two records
    with that id. *)
Lemma duplicate_rows_give_two_records :
  (_get_jobs_list_cmd sample_adapter {[ 0%nat := ["123"] ]} (Some 0%nat) None).2
  = Ok ("SLURM_TIME_FORMAT='standard' squeue --noheader "
        +:+ "-o '%i<><> %t<><> %r<><> %j<><> %u<><> %P<><> %l<><> %D<><> %C<><> %M<><> %m' "
        +:+ "--jobs=123,123")
  /\ parse_jobs_list_output sample_adapter 0
       (sample_row +:+ line_feed +:+ sample_row +:+ line_feed) ""
     = Ok [sample_record; sample_record]
  /\ QJob.job_id sample_record = Some "123"
  /\ length [sample_record; sample_record] <> 1%nat.
Proof. repeat split; discriminate. Qed.

(** ** Guarded conversions *)

Lemma try_except_int (s : string) :
  try_except (do v <- py_int s; Ok (Some v)) ValueError None
  = Ok (absent_on_error (py_int s)).
Proof.
  destruct (py_int s) as [v|e] eqn:E; cbn [bind try_except absent_on_error]; [reflexivity|].
  now rewrite (py_int_raises _ _ E).
Qed.


Lemma try_except_time (s : string) :
  try_except (_convert_time_str s) OutputParsingError None
  = Ok (match _convert_time_str s with Ok r => r | Raise _ => None end).
Proof.
  destruct (_convert_time_str s) as [v|e] eqn:E; cbn [try_except]; [reflexivity|].
  now rewrite (_convert_time_str_raises _ _ E).
Qed.



(** What the steps of the single-job parser can raise *)
Lemma dict_get_raises {V} (d : gmap string V) k e : dict_get d k = Raise e -> e = KeyError.
Proof. unfold dict_get. destruct (d !! k); congruence. Qed.

Lemma str_last_raises s e : str_last s = Raise e -> e = IndexError.
Proof.
  induction s as [|c s IH]; simpl; [congruence|].
  destruct s; [discriminate | exact IH].
Qed.

Lemma _convert_memory_str_raises m e :
  _convert_memory_str m = Raise e ->
  e = OutputParsingError \/ e = KeyError \/ e = IndexError.
Proof.
  unfold _convert_memory_str. revert e.
  apply (bind_raises _ _ (fun e => e = OutputParsingError \/ e = KeyError \/ e = IndexError)).
  - destruct (forallb _ _); [discriminate|].
    intros e. destruct (str_last m) as [u|e0] eqn:E; cbn [bind]; [discriminate|].
    intros [= <-]. right. right. now apply str_last_raises in E.
  - intros [units mem] e _.
    destruct (py_int mem) as [v|e0] eqn:E; cbn [bind try_reraise].
    + destruct (dict_get power_labels units) as [p|e1] eqn:Ep; cbn [bind]; [discriminate|].
      intros [= <-]. right. left. now apply dict_get_raises in Ep.
    + rewrite (py_int_raises _ _ E). cbn [exn_eqb]. intros [= <-]. now left.
Qed.






(** ** Cancellation acknowledgement *)

(** X1. [parse_cancel_output] returns a result for every exit code and every
    captured text, and the result carries the exit code and both texts as
    given.  With a non-zero exit code the status is FAILED and there is no
    job id.  With exit code 0 the acknowledgement is looked for in the error
    stream, not in the output: when the stripped error text starts with the
    pattern, the status is SUCCESSFUL and the job id is the longest run of
    digits after "Terminating job"; otherwise the status is JOB_ID_UNKNOWN
    and there is no job id. *)
Theorem parse_cancel_output_outcome (self : SlurmIO.t) (exit_code : Z) (stdout stderr : string) :
  exists r,
    parse_cancel_output self exit_code stdout stderr = Ok r
    /\ CancelResult.exit_code r = Some exit_code
    /\ CancelResult.stdout r = Some stdout
    /\ CancelResult.stderr r = Some stderr
    /\ (exit_code <> 0 ->
          CancelResult.status r = Some CancelStatus.FAILED
          /\ CancelResult.job_id r = None)
    /\ (exit_code = 0 ->
        matches_at_start _SLURM_CANCELLED_REGEXP (strip stderr) ->
          CancelResult.status r = Some CancelStatus.SUCCESSFUL
          /\ exists pre id post,
               strip stderr = pre +:+ id +:+ post
               /\ in_lang cancelled_prefix pre
               /\ id <> "" /\ str_forall is_digit id = true
               /\ starts_in is_digit post = false
               /\ CancelResult.job_id r = Some id)
    /\ (exit_code = 0 ->
        ~ matches_at_start _SLURM_CANCELLED_REGEXP (strip stderr) ->
          CancelResult.status r = Some CancelStatus.JOB_ID_UNKNOWN
          /\ CancelResult.job_id r = None).
Proof.
  unfold parse_cancel_output.
  destruct (exit_code =? 0) eqn:Hz; cbn [negb]; cbv iota.
  - apply Z.eqb_eq in Hz.
    destruct (re_match _SLURM_CANCELLED_REGEXP (strip stderr)) as [g|] eqn:Hm.
    + destruct (re_match_last_group _ _ _ _ _ Hm)
        as (pre & id & post & Hs & Hpre & Hid & Hpost & Hg).
      apply in_lang_Plus_forall in Hid as [Hne Hdig].
      rewrite Hg. unfold truthy.
      apply String.eqb_neq in Hne as Hne'. rewrite Hne'. cbn [negb]. cbv iota.
      eexists. split; [reflexivity|]. cbn.
      split_and!; try reflexivity.
      * congruence.
      * intros _ _. split; [reflexivity|].
        exists pre, id, post. split_and!; assumption || reflexivity.
      * intros _ Hno. apply re_match_None in Hno. congruence.
    + eexists. split; [reflexivity|]. cbn.
      split_and!; try reflexivity.
      * congruence.
      * intros _ Hyes. apply re_match_None in Hm. contradiction.
      * auto.
  - apply Z.eqb_neq in Hz.
    eexists. split; [reflexivity|]. cbn.
    split_and!; try reflexivity; intros; try contradiction; auto.
Qed.

(** X2. The result of [parse_submit_output] carries the exit code and both
    texts as given (the output is not stripped); its status is SUCCESSFUL
    exactly when it has a job id, a job id is present only with exit code
    0, and a job id is never empty and holds digits only. *)
Theorem parse_submit_output_invariant (self : SlurmIO.t) (exit_code : Z)
    (stdout stderr : string) :
  exists r,
    parse_submit_output self exit_code stdout stderr = Ok r
    /\ SubmissionResult.exit_code r = Some exit_code
    /\ SubmissionResult.stdout r = Some stdout
    /\ SubmissionResult.stderr r = Some stderr
    /\ SubmissionResult.step_id r = None
    /\ (SubmissionResult.status r = Some SubmissionStatus.SUCCESSFUL
        <-> is_Some (SubmissionResult.job_id r))
    /\ (is_Some (SubmissionResult.job_id r) -> exit_code = 0)
    /\ (forall id, SubmissionResult.job_id r = Some id ->
          id <> "" /\ str_forall is_digit id = true).
Proof.
  unfold parse_submit_output.
  destruct (exit_code =? 0) eqn:Hz; cbn [negb]; cbv iota.
  - apply Z.eqb_eq in Hz.
    destruct (re_match _SLURM_SUBMITTED_REGEXP (strip stdout)) as [g|] eqn:Hm.
    + destruct (re_match_last_group _ _ _ _ _ Hm)
        as (pre & id & post & Hs & Hpre & Hid & Hpost & Hg).
      apply in_lang_Plus_forall in Hid as [Hne Hdig].
      rewrite Hg. unfold truthy.
      apply String.eqb_neq in Hne as Hne'. rewrite Hne'. cbn [negb]. cbv iota.
      eexists. split; [reflexivity|]. cbn.
      split_and!; try reflexivity.
      * split; [intros _; now exists id | reflexivity].
      * intros _. exact Hz.
      * intros id' [= <-]. now split.
    + eexists. split; [reflexivity|]. cbn.
      split_and!; try reflexivity.
      * split; [discriminate | intros [x Hx]; discriminate].
      * intros [x Hx]. discriminate.
      * discriminate.
  - apply Z.eqb_neq in Hz.
    eexists. split; [reflexivity|]. cbn.
    split_and!; try reflexivity.
    + split; [discriminate | intros [x Hx]; discriminate].
    + intros [x Hx]. discriminate.
    + discriminate.
Qed.

(** ** The single-job query *)

Lemma bind_Raise_ex {A B} (m : result A) (k : A -> result B) :
  (forall a, exists e, k a = Raise e) -> exists e, bind m k = Raise e.
Proof.
  intros H. destruct m as [a|e]; cbn [bind]; [apply H | now exists e].
Qed.

(** X3. [parse_job_output] never returns a record: whatever the exit code
    and the captured texts, and whatever the attributes of the adapter, the
    call ends with an exception.  (When every conversion has gone through,
    the construction of [QJobInfo] is given the keywords [priority] and
    [qos], which are not fields of [QJobInfo].) *)
Theorem parse_job_output_always_raises (self : SlurmIO.t) (exit_code : Z)
    (stdout stderr : string) :
  exists e, parse_job_output self exit_code stdout stderr = Raise e.
Proof.
  unfold parse_job_output.
  destruct (negb (exit_code =? 0)).
  - apply bind_Raise_ex. intros _. now exists CommandFailedError.
  - do 12 (apply bind_Raise_ex; intros ?).
    exists TypeError. reflexivity.
Qed.

Lemma split_go_limit0 (sep s : string) : split_go sep 0 0 s = [s].
Proof.
  induction s as [|c s IH]; [reflexivity|].
  cbn [split_go]. now rewrite IH.
Qed.

Lemma cut_without_equals (w : string) :
  contains "=" w = false -> split_on_max "=" 1 w = [w].
Proof.
  unfold split_on_max. induction w as [|c w IH]; [reflexivity|].
  cbn [contains split_go prefix_rest].
  destruct (Ascii.eqb "=" c); [discriminate|].
  intros H. now rewrite (IH H).
Qed.

Lemma cut_at_first_equals (w : string) :
  contains "=" w = true ->
  exists k v, w = k +:+ "=" +:+ v /\ contains "=" k = false
              /\ split_on_max "=" 1 w = [k; v].
Proof.
  unfold split_on_max. induction w as [|c w IH]; [discriminate|].
  cbn [contains split_go prefix_rest].
  destruct (Ascii.eqb "=" c) eqn:E.
  - intros _. apply Ascii.eqb_eq in E as <-.
    exists "", w. split; [reflexivity|]. split; [reflexivity|].
    cbn. now rewrite split_go_limit0.
  - intros H. destruct (IH H) as (k & v & -> & Hk & ->).
    exists (String c k), v. split; [reflexivity|]. split; [|reflexivity].
    cbn [contains prefix_rest]. now rewrite E.
Qed.

Lemma cut_unique (k k' v v' : string) :
  contains "=" k = false -> contains "=" k' = false ->
  k +:+ "=" +:+ v = k' +:+ "=" +:+ v' -> k = k' /\ v = v'.
Proof.
  revert k'. induction k as [|c k IH]; intros [|c' k']; cbn [contains prefix_rest].
  - intros _ _ [= ->]. auto.
  - destruct (Ascii.eqb "=" c') eqn:E; [discriminate|].
    intros _ _ [= <-]. now rewrite Ascii.eqb_refl in E.
  - destruct (Ascii.eqb "=" c) eqn:E; [discriminate|].
    intros _ _ [= ->]. now rewrite Ascii.eqb_refl in E.
  - destruct (Ascii.eqb "=" c); [discriminate|].
    destruct (Ascii.eqb "=" c'); [discriminate|].
    intros Hk Hk' [= -> H]. destruct (IH _ Hk Hk' H) as [-> ->]. auto.
Qed.

(** The item that the comprehension of [_parse_scontrol_cmd_output] makes
    of one word *)
Lemma scontrol_item_with_equals (w : string) :
  contains "=" w = true ->
  exists k v, w = k +:+ "=" +:+ v /\ contains "=" k = false
    /\ (do k <- list_get (split_on_max "=" 1 w) 0;
        do v <- list_get (split_on_max "=" 1 w) 1; Ok (k, v)) = Ok (k, v).
Proof.
  intros H. destruct (cut_at_first_equals w H) as (k & v & Hw & Hk & Hcut).
  exists k, v. split; [assumption|]. split; [assumption|]. now rewrite Hcut.
Qed.

Lemma scontrol_item_without_equals (w : string) :
  contains "=" w = false ->
  (do k <- list_get (split_on_max "=" 1 w) 0;
   do v <- list_get (split_on_max "=" 1 w) 1; Ok (k, v)) = @Raise (string * string) IndexError.
Proof. intros H. now rewrite (cut_without_equals w H). Qed.

(** X4. A word of the [scontrol] output that holds no [=] ends the parsing
    with an IndexError, whatever the other words are: so does a job name
    with a blank in it.  The exception is not one that [parse_job_output]
    guards against. *)
Theorem scontrol_word_without_equals (self : SlurmIO.t) (stdout stderr w : string) :
  In w (split_ws stdout) -> contains "=" w = false ->
  _parse_scontrol_cmd_output stdout = Raise IndexError
  /\ (SlurmIO.get_job_executable self = Some "scontrol" ->
      parse_job_output self 0 stdout stderr = Raise IndexError).
Proof.
  intros Hin Hw.
  assert (H : _parse_scontrol_cmd_output stdout = Raise IndexError).
  { unfold _parse_scontrol_cmd_output.
    induction (split_ws stdout) as [|x l IH]; [destruct Hin|].
    cbn [for_each].
    destruct (contains "=" x) eqn:Hx.
    - destruct (scontrol_item_with_equals x Hx) as (k & v & _ & _ & ->).
      cbn [bind]. destruct Hin as [->|Hin]; [congruence|].
      specialize (IH Hin).
      destruct (for_each _ l) as [items|e]; cbn [bind] in *; [discriminate|].
      exact IH.
    - now rewrite (scontrol_item_without_equals x Hx). }
  split; [exact H|].
  intros Hexe. unfold parse_job_output. change (negb (0 =? 0)) with false. cbv iota.
  rewrite Hexe. cbn [SlurmIO.getattr bind].
  change (String.eqb "scontrol" "scontrol") with true. cbv iota.
  now rewrite H.
Qed.

Lemma scontrol_word_without_equals_witness :
  _parse_scontrol_cmd_output "JobId=7 JobName=my job JobState=RUNNING" = Raise IndexError
  /\ (SlurmIO.get_job_executable sample_adapter = Some "scontrol" ->
      parse_job_output sample_adapter 0 "JobId=7 JobName=my job JobState=RUNNING" ""
      = Raise IndexError).
Proof.
  apply (scontrol_word_without_equals sample_adapter
           "JobId=7 JobName=my job JobState=RUNNING" "" "job").
  - vm_compute. right. right. left. reflexivity.
  - reflexivity.
Defined.

(** ** Dictionaries built from a list of items *)

Lemma dict_of_snoc {V} (l : list (string * V)) (k : string) (v : V) :
  dict_of (l ++ [(k, v)])%list = <[k := v]> (dict_of l).
Proof. unfold dict_of. now rewrite fold_left_app. Qed.

Lemma dict_of_lookup_In {V} (l : list (string * V)) (k : string) (v : V) :
  dict_of l !! k = Some v -> In (k, v) l.
Proof.
  induction l as [|[k' v'] l IH] using rev_ind.
  - unfold dict_of. cbn [fold_left]. rewrite lookup_empty. discriminate.
  - rewrite dict_of_snoc. intros H. apply in_or_app.
    destruct (decide (k' = k)) as [->|Hne].
    + rewrite lookup_insert_eq in H. injection H as ->. right. now left.
    + rewrite lookup_insert_ne in H by assumption. left. now apply IH.
Qed.

Lemma dict_of_last {V} (pre post : list (string * V)) (k : string) (v : V) :
  (forall v', ~ In (k, v') post) ->
  dict_of (pre ++ (k, v) :: post)%list !! k = Some v.
Proof.
  induction post as [|[k' v'] post IH] using rev_ind; intros Hpost.
  - rewrite dict_of_snoc. apply lookup_insert_eq.
  - replace (pre ++ (k, v) :: post ++ [(k', v')])%list
      with ((pre ++ (k, v) :: post) ++ [(k', v')])%list
      by (now rewrite <- app_assoc).
    rewrite dict_of_snoc.
    assert (k' <> k).
    { intros ->. apply (Hpost v'). apply in_or_app. right. now left. }
    rewrite lookup_insert_ne by assumption.
    apply IH. intros v'' Hin. apply (Hpost v''). apply in_or_app. now left.
Qed.

(** X5. When every word of the [scontrol] output holds a [=],
    [_parse_scontrol_cmd_output] returns a dictionary.  Each of its entries
    comes from a word cut at its first [=], and when a key occurs in several
    words the last of them gives the value. *)
Theorem scontrol_dictionary (stdout : string) :
  (forall w, In w (split_ws stdout) -> contains "=" w = true) ->
  exists d,
    _parse_scontrol_cmd_output stdout = Ok d
    /\ (forall k v, d !! k = Some v ->
          contains "=" k = false /\ In (k +:+ "=" +:+ v) (split_ws stdout))
    /\ (forall pre post k v,
          split_ws stdout = (pre ++ (k +:+ "=" +:+ v) :: post)%list ->
          contains "=" k = false ->
          (forall v', ~ In (k +:+ "=" +:+ v') post) ->
          d !! k = Some v).
Proof.
  intros Hall. unfold _parse_scontrol_cmd_output.
  set (item := fun data : string =>
                 do k <- list_get (split_on_max "=" 1 data) 0;
                 do v <- list_get (split_on_max "=" 1 data) 1; Ok (k, v)).
  set (R := fun (w : string) (kv : string * string) =>
              w = kv.1 +:+ "=" +:+ kv.2 /\ contains "=" kv.1 = false).
  destruct (for_each_Forall item R (split_ws stdout)) as (items & Hitems & HR).
  { intros w Hw. destruct (scontrol_item_with_equals w (Hall w Hw)) as (k & v & ? & ? & ?).
    exists (k, v). split; [assumption | now split]. }
  fold item. rewrite Hitems. cbn [bind].
  exists (dict_of items). split; [reflexivity|]. split.
  - intros k v Hkv. apply dict_of_lookup_In in Hkv.
    clear Hitems Hall. induction HR as [|w [k' v'] ws items [Hw Hk'] _ IH]; [destruct Hkv|].
    destruct Hkv as [[= -> ->]|Hin].
    + split; [assumption | left; now rewrite Hw].
    + destruct (IH Hin) as [? ?]. split; [assumption | now right].
  - intros pre post k v Hsplit Hk Hpost. rewrite Hsplit in HR.
    apply Forall2_app_inv_l in HR as (ipre & irest & Hpre & Hrest & ->).
    inversion Hrest as [|w [k0 v0] ws ipost [Hw Hk0] Hposts]; subst.
    cbn [fst snd] in *.
    destruct (cut_unique _ _ _ _ Hk Hk0 Hw) as [<- <-].
    apply dict_of_last. intros v' Hin.
    clear -Hposts Hin Hpost.
    induction Hposts as [|w [k' v''] ws items [Hw Hk'] _ IH]; [destruct Hin|].
    destruct Hin as [[= -> ->]|Hin].
    + apply (Hpost v'). left. now rewrite Hw.
    + apply IH; [|assumption]. intros v0 H0. apply (Hpost v0). now right.
Qed.

Lemma scontrol_dictionary_witness :
  exists d,
    _parse_scontrol_cmd_output "JobId=7 Comment=a=b JobId=8" = Ok d
    /\ (forall k v, d !! k = Some v ->
          contains "=" k = false
          /\ In (k +:+ "=" +:+ v) (split_ws "JobId=7 Comment=a=b JobId=8"))
    /\ (forall pre post k v,
          split_ws "JobId=7 Comment=a=b JobId=8" = (pre ++ (k +:+ "=" +:+ v) :: post)%list ->
          contains "=" k = false ->
          (forall v', ~ In (k +:+ "=" +:+ v') post) ->
          d !! k = Some v).
Proof.
  apply (scontrol_dictionary "JobId=7 Comment=a=b JobId=8").
  intros w Hw. vm_compute in Hw. destruct Hw as [<-|[<-|[<-|[]]]]; reflexivity.
Defined.

(** ** Raw states by value *)

(** X6. Both values of a raw state resolve to it, the name and the code, and
    no other text resolves to it: [SlurmState(v)] returns the state [s]
    exactly when [v] is one of the two values of [s]. *)
Theorem SlurmState_call_aliases :
  (forall s : SlurmState.t,
     SlurmState.call (SlurmState.all_values s).1 = Ok s
     /\ SlurmState.call (SlurmState.all_values s).2 = Ok s)
  /\ (forall (v : string) (s : SlurmState.t),
        SlurmState.call v = Ok s ->
        v = (SlurmState.all_values s).1 \/ v = (SlurmState.all_values s).2)
  /\ (forall (v : string) (e : exn), SlurmState.call v = Raise e -> e = ValueError).
Proof.
  split; [|split].
  - intros s; destruct s; split; reflexivity.
  - intros v s. unfold SlurmState.call.
    destruct (SlurmState.value2member_map !! v) as [m|] eqn:E; [|discriminate].
    intros [= ->]. apply dict_of_lookup_In in E.
    cbn [SlurmState.members flat_map app SlurmState.all_values fst snd In] in E.
    repeat (destruct E as [[= <- <-]|E]; [cbn; auto|]). destruct E.
  - intros v e. unfold SlurmState.call.
    destruct (SlurmState.value2member_map !! v); congruence.
Qed.

(** ** Records and exceptions of the jobs-list parser *)

Lemma for_each_Raise_In {A B} (f : A -> result B) (l : list A) (e : exn) :
  for_each f l = Raise e -> exists x, In x l /\ f x = Raise e.
Proof.
  induction l as [|x l IH]; cbn [for_each]; [discriminate|].
  destruct (f x) as [y|e0] eqn:Hx; cbn [bind].
  - destruct (for_each f l) as [ys|e1]; cbn [bind]; [discriminate|].
    intros [= <-]. destruct (IH eq_refl) as (x' & Hin & Hx'). exists x'.
    split; [now right | assumption].
  - intros [= <-]. exists x. split; [now left | assumption].
Qed.

Lemma SlurmState_call_raises (v : string) (e : exn) :
  SlurmState.call v = Raise e -> e = ValueError.
Proof. unfold SlurmState.call. destruct (SlurmState.value2member_map !! v); congruence. Qed.

(** A row that gives a record has eleven fields, and the record is made of
    them as follows. *)
Lemma jobs_list_entry_Ok (data : list string) (q : QJob.t) :
  jobs_list_entry data = Ok q ->
  exists id st ann name user part tl nn nc tu mm s state t,
    data = [id; st; ann; name; user; part; tl; nn; nc; tu; mm]
    /\ SlurmState.call (strip st) = Ok s
    /\ status_mapping_get s = Ok state
    /\ _convert_time_str (strip tl) = Ok t
    /\ q = QJob.mk (Some (strip name)) (Some (strip id)) None (Some state) (Some s)
             (Some (QJobInfo.mk None
                      (match _convert_memory_str (strip mm) with
                       | Ok v => Some v
                       | Raise _ => None
                       end)
                      (absent_on_error (py_int (strip nn)))
                      (absent_on_error (py_int (strip nc)))
                      None t (<["partition" := strip part]> ∅)))
             None
             (match _convert_time_str (strip tu) with Ok r => r | Raise _ => None end)
             None (<["username" := strip user]> ∅).
Proof.
  intros H.
  destruct (Nat.eq_dec (length data) 11%nat) as [Hlen|Hlen];
    [|rewrite (jobs_list_entry_wrong_count data Hlen) in H; discriminate].
  destruct data
    as [|id [|st [|ann [|name [|user [|part [|tl [|nn [|nc [|tu [|mm [|x data]]]]]]]]]]]];
    try discriminate Hlen.
  rewrite jobs_list_entry_11 in H.
  destruct (SlurmState.call (strip st)) as [s|e] eqn:Hs;
    [|rewrite (SlurmState_call_raises _ _ Hs) in H; discriminate].
  cbn [try_reraise bind] in H.
  destruct (status_mapping_get s) as [state|e] eqn:Hstate; [|discriminate].
  cbn [bind] in H. rewrite !try_except_int in H. cbn [bind] in H.
  destruct (_convert_memory_str (strip mm)) as [v|e] eqn:Hm.
  - cbn [bind try_except] in H.
    destruct (_convert_time_str (strip tl)) as [t|e] eqn:Ht; [|discriminate].
    cbn [bind] in H. rewrite try_except_time in H. cbn [bind] in H.
    injection H as <-.
    exists id, st, ann, name, user, part, tl, nn, nc, tu, mm, s, state, t.
    rewrite Hm. auto.
  - cbn [bind try_except] in H.
    destruct (exn_eqb e OutputParsingError); [|discriminate].
    cbn [bind] in H.
    destruct (_convert_time_str (strip tl)) as [t|e'] eqn:Ht; [|discriminate].
    cbn [bind] in H. rewrite try_except_time in H. cbn [bind] in H.
    injection H as <-.
    exists id, st, ann, name, user, part, tl, nn, nc, tu, mm, s, state, t.
    rewrite Hm. auto.
Qed.

(** X7. The records that [parse_jobs_list_output] returns are in the order
    of the rows, one for each row.  Each row has eleven fields; the record
    has the stripped first field as job id and the stripped fourth as name,
    the raw state that the second field names and the canonical state that
    the mapping gives for it.  The user name and the partition are kept as
    attributes outside the declared fields, and the exit status, the
    account and the queue name of the record are never filled in. *)
Theorem parse_jobs_list_output_records (self : SlurmIO.t) (sep stdout stderr : string)
    (qs : list QJob.t) :
  SlurmIO.split_separator self = Some sep -> sep <> "" ->
  parse_jobs_list_output self 0 stdout stderr = Ok qs ->
  Forall2
    (fun data q =>
       length data = 11%nat
       /\ QJob.job_id q = Some (strip (nth 0 data ""))
       /\ QJob.name q = Some (strip (nth 3 data ""))
       /\ (exists s state,
             SlurmState.call (strip (nth 1 data "")) = Ok s
             /\ status_mapping_get s = Ok state
             /\ QJob.sub_state q = Some s
             /\ QJob.state q = Some state)
       /\ QJob.attrs q !! "username" = Some (strip (nth 4 data ""))
       /\ (exists info,
             QJob.info q = Some info
             /\ QJobInfo.attrs info !! "partition" = Some (strip (nth 5 data ""))
             /\ QJobInfo.memory info = None
             /\ QJobInfo.threads_per_process info = None)
       /\ QJob.exit_status q = None
       /\ QJob.account q = None
       /\ QJob.queue_name q = None)
    (map (split_on sep) (List.filter (contains sep) (splitlines stdout))) qs.
Proof.
  intros Hsep Hne. unfold parse_jobs_list_output.
  change (negb (0 =? 0)) with false. cbv iota.
  rewrite (jobdata_raw_rows self sep stdout Hsep Hne). cbn [bind].
  intros H. apply for_each_Ok in H.
  induction H as [|data q rows qs Hq _ IH]; constructor; [|exact IH].
  destruct (jobs_list_entry_Ok data q Hq)
    as (id & st & ann & name & user & part & tl & nn & nc & tu & mm & s & state & t
        & -> & Hs & Hstate & Ht & ->).
  cbn [length nth QJob.job_id QJob.name QJob.sub_state QJob.state QJob.attrs QJob.info
       QJob.exit_status QJob.account QJob.queue_name].
  split_and!; try reflexivity.
  - exists s, state. auto.
  - eexists. split; [reflexivity|].
    cbn [QJobInfo.attrs QJobInfo.memory QJobInfo.threads_per_process].
    split; [apply lookup_insert_eq | auto].
Qed.

Lemma parse_jobs_list_output_records_witness :
  Forall2
    (fun data q =>
       length data = 11%nat
       /\ QJob.job_id q = Some (strip (nth 0 data ""))
       /\ QJob.name q = Some (strip (nth 3 data ""))
       /\ (exists s state,
             SlurmState.call (strip (nth 1 data "")) = Ok s
             /\ status_mapping_get s = Ok state
             /\ QJob.sub_state q = Some s
             /\ QJob.state q = Some state)
       /\ QJob.attrs q !! "username" = Some (strip (nth 4 data ""))
       /\ (exists info,
             QJob.info q = Some info
             /\ QJobInfo.attrs info !! "partition" = Some (strip (nth 5 data ""))
             /\ QJobInfo.memory info = None
             /\ QJobInfo.threads_per_process info = None)
       /\ QJob.exit_status q = None
       /\ QJob.account q = None
       /\ QJob.queue_name q = None)
    (map (split_on "<><>") (List.filter (contains "<><>") (splitlines sample_row)))
    [sample_record].
Proof.
  apply (parse_jobs_list_output_records sample_adapter "<><>" sample_row "" [sample_record]).
  - reflexivity.
  - discriminate.
  - reflexivity.
Defined.

(** What a row can raise *)
Lemma jobs_list_entry_raises (data : list string) (e : exn) :
  jobs_list_entry data = Raise e ->
  e = OutputParsingError
  \/ ((e = KeyError \/ e = IndexError)
      /\ length data = 11%nat
      /\ _convert_memory_str (strip (nth 10 data "")) = Raise e).
Proof.
  intros H.
  destruct (Nat.eq_dec (length data) 11%nat) as [Hlen|Hlen];
    [|rewrite (jobs_list_entry_wrong_count data Hlen) in H; injection H as <-; now left].
  destruct data
    as [|id [|st [|ann [|name [|user [|part [|tl [|nn [|nc [|tu [|mm [|x data]]]]]]]]]]]];
    try discriminate Hlen.
  rewrite jobs_list_entry_11 in H.
  destruct (SlurmState.call (strip st)) as [s|e0] eqn:Hs.
  2:{ rewrite (SlurmState_call_raises _ _ Hs) in H. injection H as <-. now left. }
  cbn [try_reraise bind] in H.
  destruct (status_mapping_get_defined s) as (state & Hstate). rewrite Hstate in H.
  cbn [bind] in H. rewrite !try_except_int in H. cbn [bind] in H.
  cbn [nth].
  destruct (_convert_memory_str (strip mm)) as [v|e0] eqn:Hm.
  - cbn [bind try_except] in H.
    destruct (_convert_time_str (strip tl)) as [t|e1] eqn:Ht.
    + cbn [bind] in H. rewrite try_except_time in H. discriminate.
    + injection H as <-. left. eapply _convert_time_str_raises; eassumption.
  - destruct (_convert_memory_str_raises _ _ Hm) as [-> | [-> | ->]];
      cbn [bind try_except exn_eqb] in H.
    + destruct (_convert_time_str (strip tl)) as [t|e1] eqn:Ht.
      * cbn [bind] in H. rewrite try_except_time in H. discriminate.
      * injection H as <-. left. eapply _convert_time_str_raises; eassumption.
    + injection H as <-. right. auto.
    + injection H as <-. right. auto.
Qed.

(** X8. When the command succeeded and the separator is set and not empty,
    [parse_jobs_list_output] raises nothing but the parsing error, a
    KeyError or an IndexError; and a KeyError or an IndexError is the one
    that the memory conversion raised on the last field of a row of eleven
    fields, which the guard around that conversion does not catch. *)
Theorem parse_jobs_list_output_exceptions (self : SlurmIO.t) (sep stdout stderr : string)
    (e : exn) :
  SlurmIO.split_separator self = Some sep -> sep <> "" ->
  parse_jobs_list_output self 0 stdout stderr = Raise e ->
  e = OutputParsingError
  \/ ((e = KeyError \/ e = IndexError)
      /\ exists data,
           In data (map (split_on sep) (List.filter (contains sep) (splitlines stdout)))
           /\ length data = 11%nat
           /\ _convert_memory_str (strip (nth 10 data "")) = Raise e).
Proof.
  intros Hsep Hne. unfold parse_jobs_list_output.
  change (negb (0 =? 0)) with false. cbv iota.
  rewrite (jobdata_raw_rows self sep stdout Hsep Hne). cbn [bind].
  intros H. apply for_each_Raise_In in H as (data & Hin & Hdata).
  destruct (jobs_list_entry_raises data e Hdata) as [->|(He & Hlen & Hm)]; [now left|].
  right. split; [assumption|]. now exists data.
Qed.

Lemma parse_jobs_list_output_exceptions_witness :
  KeyError = OutputParsingError
  \/ ((KeyError = KeyError \/ KeyError = IndexError)
      /\ exists data,
           In data (map (split_on "<><>")
                      (List.filter (contains "<><>")
                         (splitlines "1<><> R<><> <><> n<><> u<><> p<><> 1:00<><> 1<><> 1<><> 0:01<><> 4096")))
           /\ length data = 11%nat
           /\ _convert_memory_str (strip (nth 10 data "")) = Raise KeyError).
Proof.
  apply (parse_jobs_list_output_exceptions sample_adapter "<><>"
           "1<><> R<><> <><> n<><> u<><> p<><> 1:00<><> 1<><> 1<><> 0:01<><> 4096" "").
  - reflexivity.
  - discriminate.
  - reflexivity.
Defined.

(** X9. An unknown raw state ends the two parsers with different
    exceptions: [parse_job_output] lets the ValueError of the lookup
    through, and [parse_jobs_list_output] turns it into the parsing error
    (for the first row that does not give a record). *)
Theorem unknown_state_exceptions :
  (forall (self : SlurmIO.t) (stdout stderr : string) (parsed : gmap string string)
          (raw : string),
     SlurmIO.get_job_executable self = Some "scontrol" ->
     _parse_scontrol_cmd_output stdout = Ok parsed ->
     parsed !! "JobState" = Some raw ->
     SlurmState.call raw = Raise ValueError ->
     parse_job_output self 0 stdout stderr = Raise ValueError)
  /\ (forall (self : SlurmIO.t) (sep stdout stderr : string) (pre post : list (list string))
             (data : list string) (qs : list QJob.t),
        SlurmIO.split_separator self = Some sep -> sep <> "" ->
        map (split_on sep) (List.filter (contains sep) (splitlines stdout))
        = (pre ++ data :: post)%list ->
        Forall2 (fun d q => jobs_list_entry d = Ok q) pre qs ->
        length data = 11%nat ->
        SlurmState.call (strip (nth 1 data "")) = Raise ValueError ->
        parse_jobs_list_output self 0 stdout stderr = Raise OutputParsingError).
Proof.
  split.
  - intros self stdout stderr parsed raw Hexe Hparsed Hraw Hs.
    unfold parse_job_output. change (negb (0 =? 0)) with false. cbv iota.
    rewrite Hexe. cbn [SlurmIO.getattr bind].
    change (String.eqb "scontrol" "scontrol") with true. cbv iota.
    rewrite Hparsed. cbn [bind]. unfold dict_get at 1. rewrite Hraw. cbn [bind].
    now rewrite Hs.
  - intros self sep stdout stderr pre post data qs Hsep Hne Hrows Hpre Hlen Hs.
    unfold parse_jobs_list_output. change (negb (0 =? 0)) with false. cbv iota.
    rewrite (jobdata_raw_rows self sep stdout Hsep Hne), Hrows. cbn [bind].
    eapply for_each_first_Raise; [exact Hpre|].
    destruct data
      as [|id [|st [|ann [|name [|user [|part [|tl [|nn [|nc [|tu [|mm [|x data]]]]]]]]]]]];
      try discriminate Hlen.
    rewrite jobs_list_entry_11. cbn [nth] in Hs. now rewrite Hs.
Qed.

Lemma unknown_state_exceptions_witness :
  parse_job_output sample_adapter 0 "JobId=7 JobState=BOOT_FAIL" "" = Raise ValueError
  /\ parse_jobs_list_output sample_adapter 0
       "7<><> BF<><> <><> n<><> u<><> p<><> 1:00<><> 1<><> 1<><> 0:01<><> 4000M" ""
     = Raise OutputParsingError.
Proof.
  split.
  - apply (proj1 unknown_state_exceptions sample_adapter "JobId=7 JobState=BOOT_FAIL" ""
             (<["JobState" := "BOOT_FAIL"]> (<["JobId" := "7"]> ∅)) "BOOT_FAIL");
      reflexivity.
  - apply (proj2 unknown_state_exceptions sample_adapter "<><>"
             "7<><> BF<><> <><> n<><> u<><> p<><> 1:00<><> 1<><> 1<><> 0:01<><> 4000M" ""
             [] []
             ["7"; " BF"; " "; " n"; " u"; " p"; " 1:00"; " 1"; " 1"; " 0:01"; " 4000M"] []);
      try reflexivity; [discriminate | constructor].
Defined.

(** ** The jobs-list command and the caller's list *)

(** X10. [_get_jobs_list_cmd] touches no list object but the one it is
    given, and that one only when it holds exactly one job id: every other
    reference of the heap keeps its list, the heap is unchanged when the
    list of job ids is absent or has a length other than one, and it is
    unchanged when the call raises. *)
Theorem _get_jobs_list_cmd_frame (self : SlurmIO.t) (h : heap) (job_ids : option nat)
    (user : option string) :
  (forall l, job_ids <> Some l ->
     (_get_jobs_list_cmd self h job_ids user).1 !! l = h !! l)
  /\ (forall l ids, job_ids = Some l -> h !! l = Some ids -> length ids <> 1%nat ->
        (_get_jobs_list_cmd self h job_ids user).1 = h)
  /\ (job_ids = None -> (_get_jobs_list_cmd self h job_ids user).1 = h)
  /\ (forall e, (_get_jobs_list_cmd self h job_ids user).2 = Raise e ->
        (_get_jobs_list_cmd self h job_ids user).1 = h).
Proof.
  unfold _get_jobs_list_cmd.
  destruct (truthy user && _) eqn:Hboth; cbn [fst snd].
  { split_and!; auto. }
  destruct (SlurmIO.getattr (SlurmIO.split_separator self)) as [sep|e0]; cbn [fst snd].
  2:{ split_and!; auto. }
  destruct job_ids as [l0|]; cbn [fst snd]; [|split_and!; auto].
  destruct (h !! l0) as [ids|] eqn:Hl0; cbn [default]; [|split_and!; auto].
  destruct ids as [|j ids]; cbn [fst snd]; [split_and!; auto|].
  destruct ids as [|j' ids]; cbn [length Nat.eqb fst snd].
  - split_and!.
    + intros l Hl. apply lookup_insert_ne. congruence.
    + intros l ids [= <-] Hids. rewrite Hl0 in Hids. injection Hids as <-.
      cbn. congruence.
    + discriminate.
    + discriminate.
  - split_and!; auto.
Qed.

(** X11. What [_get_jobs_list_cmd] raises: a ValueError exactly when a user
    and a non-empty list of job ids are both given, whether or not the
    separator is set; otherwise an AttributeError exactly when the
    separator was never set; and nothing else. *)
Theorem _get_jobs_list_cmd_raises (self : SlurmIO.t) (h : heap) (l : nat)
    (ids : list string) (user : option string) :
  h !! l = Some ids ->
  ((_get_jobs_list_cmd self h (Some l) user).2 = Raise ValueError
   <-> truthy user = true /\ ids <> [])
  /\ ((_get_jobs_list_cmd self h (Some l) user).2 = Raise AttributeError
      <-> ~ (truthy user = true /\ ids <> []) /\ SlurmIO.split_separator self = None)
  /\ (forall e, (_get_jobs_list_cmd self h (Some l) user).2 = Raise e ->
        e = ValueError \/ e = AttributeError).
Proof.
  intros Hl. unfold _get_jobs_list_cmd. rewrite Hl. cbn [default].
  destruct (truthy user) eqn:Hu; destruct ids as [|j ids]; cbn [andb fst snd];
    destruct (SlurmIO.split_separator self) as [sep|] eqn:Hsep;
    cbn [SlurmIO.getattr fst snd];
    try (destruct (length (j :: ids) =? 1)%nat; cbn [fst snd]);
    (split_and!;
     [ intuition (try discriminate; try congruence)
     | intuition (try discriminate; try congruence)
     | intros e H; inversion H; auto ]).
Qed.

Lemma _get_jobs_list_cmd_raises_witness :
  ((_get_jobs_list_cmd SlurmIO.blank {[ 3%nat := ["7"] ]} (Some 3%nat) (Some "bob")).2
   = Raise ValueError
   <-> truthy (Some "bob") = true /\ ["7"] <> [])
  /\ ((_get_jobs_list_cmd SlurmIO.blank {[ 3%nat := ["7"] ]} (Some 3%nat) (Some "bob")).2
      = Raise AttributeError
      <-> ~ (truthy (Some "bob") = true /\ ["7"] <> [])
          /\ SlurmIO.split_separator SlurmIO.blank = None)
  /\ (forall e,
        (_get_jobs_list_cmd SlurmIO.blank {[ 3%nat := ["7"] ]} (Some 3%nat) (Some "bob")).2
        = Raise e ->
        e = ValueError \/ e = AttributeError).
Proof.
  apply (_get_jobs_list_cmd_raises SlurmIO.blank {[ 3%nat := ["7"] ]} 3%nat ["7"]
           (Some "bob")).
  reflexivity.
Defined.

(** X12. Asking twice with the same list of one job id gives the same
    command both times: the first call leaves the id twice in the list, and
    the second call, given that list, builds the same command and leaves
    the list as it is. *)
Theorem _get_jobs_list_cmd_twice (self : SlurmIO.t) (sep : string) (h : heap) (l : nat)
    (j : string) :
  SlurmIO.split_separator self = Some sep ->
  h !! l = Some [j] ->
  _get_jobs_list_cmd self (_get_jobs_list_cmd self h (Some l) None).1 (Some l) None
  = _get_jobs_list_cmd self h (Some l) None.
Proof.
  intros Hsep Hl.
  rewrite (_get_jobs_list_cmd_single self sep h l j Hsep Hl). cbn [fst].
  unfold _get_jobs_list_cmd. rewrite Hsep, lookup_insert_eq.
  cbn -[lookup insert String.append join]. rewrite lookup_insert_eq. reflexivity.
Qed.

Lemma _get_jobs_list_cmd_twice_witness :
  _get_jobs_list_cmd sample_adapter
    (_get_jobs_list_cmd sample_adapter {[ 0%nat := ["123"] ]} (Some 0%nat) None).1
    (Some 0%nat) None
  = _get_jobs_list_cmd sample_adapter {[ 0%nat := ["123"] ]} (Some 0%nat) None.
Proof.
  apply (_get_jobs_list_cmd_twice sample_adapter "<><>" {[ 0%nat := ["123"] ]} 0%nat "123");
    reflexivity.
Defined.

(** ** Numbers in decimal digits *)



Lemma str_forall_app (p : ascii -> bool) (a b : string) :
  str_forall p (a +:+ b) = str_forall p a && str_forall p b.
Proof.
  induction a as [|c a IH]; cbn [String.append str_forall]; [reflexivity|].
  now rewrite IH, andb_assoc.
Qed.

Lemma str_forall_impl (p q : ascii -> bool) (s : string) :
  (forall c, p c = true -> q c = true) -> str_forall p s = true -> str_forall q s = true.
Proof.
  intros Hpq. induction s as [|c s IH]; cbn [str_forall]; [reflexivity|].
  intros H. apply andb_true_iff in H as [Hc Hs]. now rewrite (Hpq c Hc), IH.
Qed.









(** ** Memory texts *)



Lemma str_last_Raise (s : string) (e : exn) : str_last s = Raise e -> s = "".
Proof.
  induction s as [|c s IH]; [reflexivity|].
  cbn [str_last]. destruct s as [|c' s]; [discriminate|].
  intros H. discriminate (IH H).
Qed.

(** X14. [_convert_memory_str] raises nothing but the parsing error, a
    KeyError or an IndexError, and it raises the IndexError exactly on the
    empty text. *)
Theorem _convert_memory_str_exceptions :
  (forall (memory : string) (e : exn),
     _convert_memory_str memory = Raise e ->
     e = OutputParsingError \/ e = KeyError \/ e = IndexError)
  /\ (forall memory : string,
        _convert_memory_str memory = Raise IndexError <-> memory = "").
Proof.
  split; [exact _convert_memory_str_raises|].
  intros memory. split; [|now intros ->].
  unfold _convert_memory_str.
  destruct (forallb _ _) eqn:Hall; cbn [bind].
  - cbn [forallb] in Hall. apply andb_true_iff in Hall as [HK _].
    rewrite (py_int_unit_letter "K" memory eq_refl HK). discriminate.
  - destruct (str_last memory) as [u|e] eqn:Hlast; cbn [bind].
    + destruct (py_int (str_init memory)) as [v|e] eqn:Hint; cbn [try_reraise bind].
      * destruct (dict_get power_labels u) as [p|e] eqn:Hp; cbn [bind]; [discriminate|].
        rewrite (dict_get_raises _ _ _ Hp). discriminate.
      * rewrite (py_int_raises _ _ Hint). discriminate.
    + intros _. eapply str_last_Raise; eassumption.
Qed.

(** ** Time texts *)







Lemma bind_Ok_inv {A B} (m : result A) (k : A -> result B) (b : B) :
  bind m k = Ok b -> exists a, m = Ok a /\ k a = Ok b.
Proof. destruct m as [a|e]; cbn [bind]; [|discriminate]. intros H. now exists a. Qed.

(** X16. [_convert_time_str] raises nothing but the parsing error; it
    returns no value exactly on the empty text and on "UNLIMITED" and
    "NOT_SET"; and a text of more than three fields between colons raises
    the parsing error. *)
Theorem _convert_time_str_outcomes :
  (forall (s : string) (e : exn), _convert_time_str s = Raise e -> e = OutputParsingError)
  /\ (forall s : string,
        _convert_time_str s = Ok None <-> s = "" \/ s = "UNLIMITED" \/ s = "NOT_SET")
  /\ (forall s : string,
        s <> "" -> s <> "UNLIMITED" -> s <> "NOT_SET" ->
        (3 < length (split_on ":" s))%nat ->
        _convert_time_str s = Raise OutputParsingError).
Proof.
  split; [exact _convert_time_str_raises|]. split.
  - intros s. split.
    + unfold _convert_time_str.
      destruct (String.eqb s "") eqn:E0; [apply String.eqb_eq in E0; auto|].
      cbn [existsb].
      destruct (String.eqb s "UNLIMITED") eqn:E1; [apply String.eqb_eq in E1; auto|].
      destruct (String.eqb s "NOT_SET") eqn:E2; [apply String.eqb_eq in E2; auto|].
      cbn [orb]. intros H. apply bind_Ok_inv in H as ([[[d h] m] x] & _ & H).
      discriminate.
    + intros [->|[->| ->]]; reflexivity.
  - intros s H0 H1 H2 Hlen.
    destruct (_convert_time_str s) as [r|e] eqn:E;
      [|now rewrite (_convert_time_str_raises s e E)].
    exfalso. revert E. unfold _convert_time_str.
    apply String.eqb_neq in H0, H1, H2. rewrite H0. cbn [existsb]. rewrite H1, H2.
    cbn [orb].
    destruct (split_on ":" s) as [|f0 [|f1 [|f2 [|f3 rest]]]];
      cbn [length] in Hlen; try lia.
    unfold list_get at 1. cbn [lookup list_lookup bind].
    destruct (contains "-" f0).
    + destruct (split_on "-" f0) as [|day dtail]; [discriminate|].
      unfold list_get. cbn [lookup list_lookup bind tail].
      destruct (py_int day) as [v|e]; cbn [bind try_reraise]; [discriminate|].
      destruct (exn_eqb e ValueError); discriminate.
    + cbn [bind try_reraise]. discriminate.
Qed.

Lemma _convert_time_str_outcomes_witness :
  _convert_time_str "1:2:3:4" = Raise OutputParsingError.
Proof.
  apply (proj2 (proj2 _convert_time_str_outcomes) "1:2:3:4");
    try discriminate. cbn. lia.
Defined.

(** ** The executable of the single-job query *)

(** X17. [_get_job_cmd] builds a command exactly when the executable is
    "scontrol", and the command ends with the job id.  For any other
    executable, and when the attribute was never set, it raises, and
    [parse_job_output] on a successful command raises the same exception:
    AttributeError without the attribute, NotImplementedError for "sacct"
    and RuntimeError for anything else. *)
Theorem _get_job_cmd_and_parser_agree (self : SlurmIO.t) (job_id stdout stderr : string) :
  (SlurmIO.get_job_executable self = Some "scontrol"
   <-> _get_job_cmd self job_id
       = Ok ("SLURM_TIME_FORMAT='standard' scontrol show job -o " +:+ job_id))
  /\ (forall e, _get_job_cmd self job_id = Raise e ->
        parse_job_output self 0 stdout stderr = Raise e
        /\ (e = AttributeError /\ SlurmIO.get_job_executable self = None
            \/ e = NotImplementedError /\ SlurmIO.get_job_executable self = Some "sacct"
            \/ e = RuntimeError
               /\ exists exe, SlurmIO.get_job_executable self = Some exe
                              /\ exe <> "scontrol" /\ exe <> "sacct")).
Proof.
  unfold _get_job_cmd, parse_job_output. change (negb (0 =? 0)) with false. cbv iota.
  destruct (SlurmIO.get_job_executable self) as [exe|]; cbn [SlurmIO.getattr bind].
  - destruct (String.eqb exe "scontrol") eqn:E1.
    + apply String.eqb_eq in E1 as ->. split; [split; reflexivity | discriminate].
    + apply String.eqb_neq in E1.
      destruct (String.eqb exe "sacct") eqn:E2.
      * apply String.eqb_eq in E2 as ->.
        split; [split; [congruence | discriminate]|].
        intros e [= <-]. cbn [bind]. split; [reflexivity | auto].
      * apply String.eqb_neq in E2.
        split; [split; [congruence | discriminate]|].
        intros e [= <-]. cbn [bind]. split; [reflexivity|].
        right. right. split; [reflexivity|]. now exists exe.
  - split; [split; discriminate|].
    intros e [= <-]. split; [reflexivity | auto].
Qed.

(** ** Supported resource fields *)

(** X18. Of the keys that [supported_qresources_keys] lists, all but one
    are fields of [QResources]: reading a listed key on a [QResources]
    raises AttributeError exactly for the key "hold".  The fields
    [job_name], [output_filepath] and [error_filepath] of [QResources] are
    not listed. *)
Theorem supported_qresources_keys_fields :
  (forall (resources : QResources.t) (key : string),
     In key supported_qresources_keys ->
     (QResources.getattr resources key = Raise AttributeError <-> key = "hold")
     /\ (key <> "hold" -> exists v, QResources.getattr resources key = Ok v))
  /\ ~ In "job_name" supported_qresources_keys
  /\ ~ In "output_filepath" supported_qresources_keys
  /\ ~ In "error_filepath" supported_qresources_keys
  /\ length supported_qresources_keys = 11%nat.
Proof.
  split.
  - intros resources key Hin.
    cbn [supported_qresources_keys _qresources_mapping map fst In] in Hin.
    repeat (destruct Hin as [<-|Hin];
            [first [ split; [split; [intros H; discriminate H | intros H; discriminate H]
                            | intros _; eexists; reflexivity]
                   | split; [split; reflexivity | congruence] ]|]).
    destruct Hin.
  - split_and!; try reflexivity;
      cbn [supported_qresources_keys _qresources_mapping map fst In];
      intros H; repeat (destruct H as [H|H]; [discriminate H|]); exact H.
Qed.

Lemma supported_qresources_keys_fields_witness :
  (QResources.getattr QResources.default "qos" = Raise AttributeError <-> "qos" = "hold")
  /\ ("qos" <> "hold" -> exists v, QResources.getattr QResources.default "qos" = Ok v).
Proof.
  apply (proj1 supported_qresources_keys_fields QResources.default "qos").
  vm_compute. tauto.
Defined.

(** ** The states of the records *)

(** X19. The canonical state of a record of the jobs list is one of QUEUED,
    RUNNING, SUSPENDED, DONE and FAILED: the mapping never gives
    UNDETERMINED or one of the held or requeued states. *)
Theorem parse_jobs_list_output_states (self : SlurmIO.t) (sep stdout stderr : string)
    (qs : list QJob.t) (q : QJob.t) :
  SlurmIO.split_separator self = Some sep -> sep <> "" ->
  parse_jobs_list_output self 0 stdout stderr = Ok qs ->
  In q qs ->
  In (QJob.state q)
     [Some QState.QUEUED; Some QState.RUNNING; Some QState.SUSPENDED; Some QState.DONE;
      Some QState.FAILED].
Proof.
  intros Hsep Hne. unfold parse_jobs_list_output.
  change (negb (0 =? 0)) with false. cbv iota.
  rewrite (jobdata_raw_rows self sep stdout Hsep Hne). cbn [bind].
  intros H Hin. apply for_each_Ok in H.
  induction H as [|data q0 rows qs Hq _ IH]; [destruct Hin|].
  destruct Hin as [->|Hin]; [|exact (IH Hin)].
  destruct (jobs_list_entry_Ok data q Hq)
    as (id & st & ann & name & user & part & tl & nn & nc & tu & mm & s & state & t
        & _ & _ & Hstate & _ & ->).
  cbn [QJob.state].
  destruct s; injection Hstate as <-; cbn; tauto.
Qed.

Lemma parse_jobs_list_output_states_witness :
  In (QJob.state sample_record)
     [Some QState.QUEUED; Some QState.RUNNING; Some QState.SUSPENDED; Some QState.DONE;
      Some QState.FAILED].
Proof.
  apply (parse_jobs_list_output_states sample_adapter "<><>" sample_row "" [sample_record]).
  - reflexivity.
  - discriminate.
  - reflexivity.
  - now left.
Defined.

(** ** A line in the format of the jobs-list command *)

Lemma split_go_skip (sep x rest : string) (limit : nat) :
  split_go sep limit (String.length x) (x +:+ rest) = split_go sep limit 0 rest.
Proof.
  induction x as [|c x IH]; cbn [String.length String.append]; [reflexivity|].
  cbn [split_go]. exact IH.
Qed.

Lemma prefix_rest_first (c0 : ascii) (sep' : string) (x : ascii) (s : string) :
  Ascii.eqb c0 x = false -> prefix_rest (String c0 sep') (String x s) = None.
Proof. intros H. cbn [prefix_rest]. now rewrite H. Qed.

Lemma split_go_no_first (c0 : ascii) (sep' a : string) (limit : nat) :
  str_forall (fun x => negb (Ascii.eqb c0 x)) a = true ->
  split_go (String c0 sep') limit 0 a = [a].
Proof.
  induction a as [|x a IH]; [reflexivity|].
  cbn [str_forall]. intros H. apply andb_true_iff in H as [Hx Ha].
  apply negb_true_iff in Hx.
  cbn [split_go]. rewrite (prefix_rest_first c0 sep' x a Hx), (IH Ha).
  now destruct limit.
Qed.

Lemma split_go_sep_app (c0 : ascii) (sep' a b : string) (l : nat) :
  str_forall (fun x => negb (Ascii.eqb c0 x)) a = true ->
  split_go (String c0 sep') (S l) 0 (a +:+ String c0 sep' +:+ b)
  = a :: split_go (String c0 sep') l 0 b.
Proof.
  induction a as [|x a IH].
  - intros _. cbn [String.append split_go String.length prefix_rest].
    rewrite Ascii.eqb_refl, prefix_rest_app.
    replace (S (String.length sep') - 1)%nat with (String.length sep') by lia.
    now rewrite split_go_skip.
  - cbn [str_forall]. intros H. apply andb_true_iff in H as [Hx Ha].
    apply negb_true_iff in Hx.
    change (String x a +:+ String c0 sep' +:+ b)
      with (String x (a +:+ String c0 sep' +:+ b)).
    cbn [split_go].
    rewrite (prefix_rest_first c0 sep' x _ Hx), (IH Ha). reflexivity.
Qed.

Lemma split_go_join (c0 : ascii) (sep' : string) (vs : list string) : forall limit,
  vs <> [] ->
  Forall (fun v => str_forall (fun x => negb (Ascii.eqb c0 x)) v = true) vs ->
  (length vs <= S limit)%nat ->
  split_go (String c0 sep') limit 0 (join (String c0 sep') vs) = vs.
Proof.
  induction vs as [|x [|y vs] IH]; intros limit Hne Hall Hlen.
  - congruence.
  - cbn [join]. apply split_go_no_first. now inversion Hall.
  - change (join (String c0 sep') (x :: y :: vs))
      with (x +:+ String c0 sep' +:+ join (String c0 sep') (y :: vs)).
    inversion Hall as [|? ? Hx Hrest]; subst.
    destruct limit as [|l]; [cbn [length] in Hlen; lia|].
    rewrite (split_go_sep_app c0 sep' x _ l Hx).
    rewrite IH; [reflexivity | discriminate | assumption | cbn [length] in *; lia].
Qed.

Lemma join_length (sep : string) (vs : list string) :
  sep <> "" -> (length vs <= S (String.length (join sep vs)))%nat.
Proof.
  intros Hsep. induction vs as [|x [|y vs] IH]; cbn [length]; try lia.
  change (join sep (x :: y :: vs)) with (x +:+ sep +:+ join sep (y :: vs)).
  rewrite !str_length_app. cbn [length] in IH.
  destruct sep; [congruence|]. cbn [String.length]. lia.
Qed.

Lemma contains_app_intro (sep a b : string) : contains sep (a +:+ sep +:+ b) = true.
Proof.
  induction a as [|x a IH]; cbn [String.append].
  - destruct (sep +:+ b) eqn:E; cbn [contains]; rewrite <- E, prefix_rest_app; reflexivity.
  - cbn [contains]. destruct (prefix_rest sep _); [reflexivity | exact IH].
Qed.

Lemma str_forall_join (p : ascii -> bool) (sep : string) (vs : list string) :
  str_forall p sep = true -> Forall (fun v => str_forall p v = true) vs ->
  str_forall p (join sep vs) = true.
Proof.
  intros Hsep. induction vs as [|x [|y vs] IH]; intros Hall.
  - reflexivity.
  - now inversion Hall.
  - change (join sep (x :: y :: vs)) with (x +:+ sep +:+ join sep (y :: vs)).
    inversion Hall as [|? ? Hx Hrest]; subst.
    rewrite !str_forall_app, Hx, Hsep, (IH Hrest). reflexivity.
Qed.

Lemma splitlines_one_line (s : string) :
  str_forall (fun x => negb (is_linebreak x)) s = true -> s <> "" ->
  splitlines s = [s].
Proof.
  unfold splitlines. induction s as [|c s IH]; [congruence|].
  cbn [str_forall]. intros H _. apply andb_true_iff in H as [Hc Hs].
  apply negb_true_iff in Hc.
  cbn [splitlines_go andb]. rewrite Hc.
  destruct s as [|c' s]; [reflexivity|].
  rewrite (IH Hs); [reflexivity | discriminate].
Qed.

(** X20. A line made of at least two fields joined by the separator is
    taken apart into exactly these fields, provided that no field holds
    the first character of the separator and that neither the fields nor
    the separator hold a line boundary: the line is the one row of the
    output, and the call gives what the row gives. *)
Theorem squeue_line_round_trip (self : SlurmIO.t) (c0 : ascii) (sep' : string)
    (fields : list string) (stderr : string) :
  SlurmIO.split_separator self = Some (String c0 sep') ->
  str_forall (fun x => negb (is_linebreak x)) (String c0 sep') = true ->
  (2 <= length fields)%nat ->
  Forall (fun v => str_forall (fun x => negb (Ascii.eqb c0 x) && negb (is_linebreak x)) v
                   = true) fields ->
  jobdata_raw self (join (String c0 sep') fields) = Ok [fields]
  /\ parse_jobs_list_output self 0 (join (String c0 sep') fields) stderr
     = (do q <- jobs_list_entry fields; Ok [q]).
Proof.
  intros Hsep Hbreak Hlen Hall.
  set (sep := String c0 sep') in *.
  assert (Hfirst : Forall (fun v => str_forall (fun x => negb (Ascii.eqb c0 x)) v = true)
                     fields).
  { eapply Forall_impl; [exact Hall|]. intros v Hv.
    eapply str_forall_impl; [|exact Hv]. cbv beta. intros x Hx.
    now apply andb_true_iff in Hx as [-> _]. }
  assert (Hlines : Forall (fun v => str_forall (fun x => negb (is_linebreak x)) v = true)
                     fields).
  { eapply Forall_impl; [exact Hall|]. intros v Hv.
    eapply str_forall_impl; [|exact Hv]. cbv beta. intros x Hx.
    now apply andb_true_iff in Hx as [_ ->]. }
  assert (Hcontains : contains sep (join sep fields) = true).
  { destruct fields as [|x [|y vs]]; cbn [length] in Hlen; try lia.
    change (join sep (x :: y :: vs)) with (x +:+ sep +:+ join sep (y :: vs)).
    apply contains_app_intro. }
  assert (Hnonempty : join sep fields <> "").
  { intros E. rewrite E in Hcontains. discriminate. }
  assert (Hrows : jobdata_raw self (join sep fields) = Ok [fields]).
  { rewrite (jobdata_raw_rows self sep _ Hsep) by discriminate.
    rewrite (splitlines_one_line _ (str_forall_join _ sep fields Hbreak Hlines) Hnonempty).
    cbn [List.filter]. rewrite Hcontains. cbn [map]. unfold split_on.
    rewrite (split_go_join c0 sep' fields); [reflexivity | | assumption |].
    - intros ->. cbn [length] in Hlen. lia.
    - assert (Hs : sep <> "") by (unfold sep; discriminate).
      pose proof (join_length sep fields Hs). fold sep. lia. }
  split; [exact Hrows|].
  unfold parse_jobs_list_output. change (negb (0 =? 0)) with false. cbv iota.
  rewrite Hrows. reflexivity.
Qed.

Lemma squeue_line_round_trip_witness :
  jobdata_raw sample_adapter (join "<><>" ["123"; " R"; " None"]) = Ok [["123"; " R"; " None"]]
  /\ parse_jobs_list_output sample_adapter 0 (join "<><>" ["123"; " R"; " None"]) ""
     = (do q <- jobs_list_entry ["123"; " R"; " None"]; Ok [q]).
Proof.
  apply (squeue_line_round_trip sample_adapter "<" "><>" ["123"; " R"; " None"] "").
  - reflexivity.
  - reflexivity.
  - cbn. lia.
  - repeat constructor.
Defined.

(** ** What does not influence the outcome of a row *)

(** X21. The outcome for a row depends on its fields only up to the blanks
    around them, and not at all on its third field, the reason that
    [squeue] gives for the state of the job, which is asked for but never
    used: two rows of the same length whose fields other than the third
    agree once stripped give the same record or the same exception.  So
    the blank that the format of [_get_jobs_list_cmd] puts after each
    separator does not change what is parsed. *)
Theorem jobs_list_entry_blanks (data data' : list string) :
  length data = length data' ->
  (forall i : nat, i <> 2%nat -> strip (nth i data "") = strip (nth i data' "")) ->
  jobs_list_entry data = jobs_list_entry data'.
Proof.
  intros Hlen H.
  destruct (Nat.eq_dec (length data) 11%nat) as [H11|H11].
  - assert (H11' : length data' = 11%nat) by congruence.
    destruct data
      as [|f0 [|f1 [|f2 [|f3 [|f4 [|f5 [|f6 [|f7 [|f8 [|f9 [|f10 [|x data]]]]]]]]]]]];
      try discriminate H11.
    destruct data'
      as [|g0 [|g1 [|g2 [|g3 [|g4 [|g5 [|g6 [|g7 [|g8 [|g9 [|g10 [|y data']]]]]]]]]]]];
      try discriminate H11'.
    rewrite !jobs_list_entry_11.
    pose proof (H 0%nat ltac:(lia)) as E0. pose proof (H 1%nat ltac:(lia)) as E1.
    pose proof (H 3%nat ltac:(lia)) as E3. pose proof (H 4%nat ltac:(lia)) as E4.
    pose proof (H 5%nat ltac:(lia)) as E5. pose proof (H 6%nat ltac:(lia)) as E6.
    pose proof (H 7%nat ltac:(lia)) as E7. pose proof (H 8%nat ltac:(lia)) as E8.
    pose proof (H 9%nat ltac:(lia)) as E9. pose proof (H 10%nat ltac:(lia)) as E10.
    cbn [nth] in *.
    rewrite E0, E1, E3, E4, E5, E6, E7, E8, E9, E10. reflexivity.
  - rewrite (jobs_list_entry_wrong_count data H11).
    rewrite (jobs_list_entry_wrong_count data'); [reflexivity | congruence].
Qed.

Lemma jobs_list_entry_blanks_witness :
  jobs_list_entry ["123"; " R"; " None"; " myjob"; " alice"; " debug"; " 2:00:00"; " 2"; " 8";
                   " 5:06"; " 4000M"]
  = jobs_list_entry ["123 "; "R"; "Priority"; "myjob"; "alice"; "debug"; "2:00:00"; "2";
                     "  8 "; "5:06"; "4000M"].
Proof.
  apply jobs_list_entry_blanks; [reflexivity|].
  intros i Hi.
  do 11 (destruct i as [|i]; [try reflexivity; congruence|]).
  destruct i; reflexivity.
Defined.

(** ** The theorems above on sample inputs *)

Lemma parse_cancel_output_outcome_witness :
  exists r,
    parse_cancel_output sample_adapter 0 "" ("scancel: Terminating job 80" +:+ line_feed)
    = Ok r
    /\ CancelResult.status r = Some CancelStatus.SUCCESSFUL
    /\ CancelResult.job_id r = Some "80".
Proof.
  destruct (parse_cancel_output_outcome sample_adapter 0 ""
              ("scancel: Terminating job 80" +:+ line_feed))
    as (r & Hr & _ & _ & _ & _ & Hyes & _).
  exists r. split; [exact Hr|].
  destruct Hyes as (Hst & _);
    [reflexivity | now apply (re_match_Some _ _ (<["jobid" := "80"]> ∅)) |].
  split; [exact Hst|].
  vm_compute in Hr. injection Hr as <-. reflexivity.
Defined.

Lemma parse_submit_output_invariant_witness :
  exists r,
    parse_submit_output sample_adapter 0 "Submitted batch job 12345" "" = Ok r
    /\ SubmissionResult.status r = Some SubmissionStatus.SUCCESSFUL.
Proof.
  destruct (parse_submit_output_invariant sample_adapter 0 "Submitted batch job 12345" "")
    as (r & Hr & _ & _ & _ & _ & Hiff & _).
  exists r. split; [exact Hr|]. apply Hiff.
  vm_compute in Hr. injection Hr as <-. now exists "12345".
Defined.

Lemma SlurmState_call_aliases_witness :
  "PD" = (SlurmState.all_values SlurmState.PENDING).1
  \/ "PD" = (SlurmState.all_values SlurmState.PENDING).2.
Proof.
  apply (proj1 (proj2 SlurmState_call_aliases) "PD" SlurmState.PENDING). reflexivity.
Defined.

Lemma _get_jobs_list_cmd_frame_witness :
  (_get_jobs_list_cmd sample_adapter {[ 0%nat := ["1"]; 1%nat := ["2"; "3"] ]}
     (Some 0%nat) None).1 !! 1%nat
  = ({[ 0%nat := ["1"]; 1%nat := ["2"; "3"] ]} : heap) !! 1%nat.
Proof.
  apply (proj1 (_get_jobs_list_cmd_frame sample_adapter
                  {[ 0%nat := ["1"]; 1%nat := ["2"; "3"] ]} (Some 0%nat) None)).
  discriminate.
Defined.

Lemma _convert_memory_str_exceptions_witness :
  KeyError = OutputParsingError \/ KeyError = KeyError \/ KeyError = IndexError.
Proof.
  apply (proj1 _convert_memory_str_exceptions "4096" KeyError). reflexivity.
Defined.

Lemma _get_job_cmd_and_parser_agree_witness :
  parse_job_output (SlurmIO.mk (Some "sacct") None) 0 "JobId=1" "" = Raise NotImplementedError
  /\ (NotImplementedError = AttributeError
      /\ SlurmIO.get_job_executable (SlurmIO.mk (Some "sacct") None) = None
      \/ NotImplementedError = NotImplementedError
         /\ SlurmIO.get_job_executable (SlurmIO.mk (Some "sacct") None) = Some "sacct"
      \/ NotImplementedError = RuntimeError
         /\ exists exe, SlurmIO.get_job_executable (SlurmIO.mk (Some "sacct") None) = Some exe
                        /\ exe <> "scontrol" /\ exe <> "sacct").
Proof.
  apply (proj2 (_get_job_cmd_and_parser_agree (SlurmIO.mk (Some "sacct") None)
                  "1" "JobId=1" "") NotImplementedError).
  reflexivity.
Defined.
